(** * SENTINEL AEGIS: the assessment aggregation engine

    A shallow embedding of [SENTINEL-AEGIS.py]: the coordinator class
    [SentinelAegis] (module loop, weighted risk score, risk level,
    recommendations, report) together with the seven stub modules and
    [main].

    Modelling choices.
    - A Python [dict] with string keys is a [gmap string _]; the module
      registry, whose iteration order matters, is an association list.
    - Python values that occur in module results are the type [pyval]
      (JSON-like: None, booleans, numbers, strings, lists, dicts).
    - Numbers are exact rationals ([Qc], canonical fractions, so that
      Leibniz equality is numeric equality).  An [int] embeds exactly and
      the literals [0.3], [0.2], [0.25] are 3/10, 1/5 and 1/4.  The
      arithmetic the interpreter computes with, binary64, is the module
      [Binary64]: the same aggregator with every product and partial
      sum rounded, and with the [OverflowError] of an [int] too large
      for a float.
    - A Python exception is the [Raise] branch of [outcome], and [exn]
      holds instances of [Exception]; the text of an exception raised
      by the interpreter itself is not modelled.  What a module may
      raise outside [Exception] is the module [Interruptible]: the same
      loop, which such an exception leaves.
    - A value is a tree ([pyval]) and the functions return new values.
      The store of objects that the code shares and could write to is
      the module [Heap]: the same aggregator, recommendation builder
      and report generation on references and mutable objects.
    - The clock ([datetime.now]) and the file system ([_save_report]) are
      inputs of the functions that use them. *)

From Stdlib Require Import QArith Qcanon Qround Qabs Qpower Lqa Sorted Floats.
From stdpp Require Import numbers strings list gmap.

Set Warnings "-register-all".
Local Open Scope Qc_scope.

(** ** Python values *)

Inductive pyval : Type :=
| PNone
| PBool (b : bool)
| PNum (x : Qc)
| PStr (s : string)
| PList (l : list pyval)
| PDict (d : gmap string pyval).

(** A [dict] with string keys, and the results mapping
    (module name to that module's result dict). *)
Abbreviation pydict := (gmap string pyval).
Abbreviation pyresults := (gmap string (gmap string pyval)).

(** A numeric literal of the source, as an exact rational. *)
Notation "'#' q" := (Q2Qc q%Q) (at level 1, q at level 0, format "'#' q").

(** ** Exceptions *)

(** The exceptions that are instances of [Exception], which is what
    [except Exception] catches.  [TypeError], [AttributeError],
    [KeyError] and [OverflowError] are the classes the interpreter
    raises on the engine's own operations; [Raised text] is an
    exception of any such class raised by a module, with
    [str(e) = text]. *)
Inductive exn : Type :=
| TypeError
| AttributeError
| KeyError (key : string)
| OverflowError
| Raised (text : string).

Inductive outcome (A : Type) : Type :=
| Ok (a : A)
| Raise (e : exn).
Arguments Ok {A} a.
Arguments Raise {A} e.

Global Instance outcome_ret : MRet outcome := λ A a, Ok a.
Global Instance outcome_bind : MBind outcome := λ A B f m,
  match m with
  | Ok a => f a
  | Raise e => Raise e
  end.

(** [str(e)] of a caught exception.  A module's exception is [Raised
    text], whatever its class, and [str] is exact on it, as it is on
    [KeyError] and on the one [OverflowError] of the engine.  The
    message of a [TypeError] or [AttributeError] of the interpreter
    names the operands; the class name stands for it here, and no
    property below reads it. *)
Definition str (e : exn) : string :=
  match e with
  | Raised text => text
  | KeyError key => "'" +:+ key +:+ "'"
  | OverflowError => "int too large to convert to float"
  | TypeError => "TypeError"
  | AttributeError => "AttributeError"
  end.

(** ** Operations of the interpreter that the engine uses *)

(** The numeric reading of a value: [bool] is a subclass of [int]. *)
Definition as_number (v : pyval) : option Qc :=
  match v with
  | PNum x => Some x
  | PBool b => Some (if b then #1 else #0)
  | _ => None
  end.

(** [v * w] for a float literal [w], in exact arithmetic
    ([Binary64.py_mul] is the rounded product). *)
Definition py_mul (v : pyval) (w : Qc) : outcome Qc :=
  match as_number v with
  | Some x => Ok (x * w)
  | None => Raise TypeError
  end.

(** [sum(scores)]: the built-in starts from 0 and adds from the left;
    here in exact arithmetic ([Binary64.py_sum] rounds each partial
    sum). *)
Definition py_sum (scores : list Qc) : Qc :=
  fold_left Qcplus scores #0.

(** [d.get(key, default)]. *)
Definition dict_get (d : pydict) (key : string) (default : pyval) : pyval :=
  match d !! key with
  | Some v => v
  | None => default
  end.

(** [v in [s1, s2, ...]]: membership in a list of string literals
    compares with [==], which only a string can satisfy. *)
Definition in_strings (v : pyval) (literals : list string) : bool :=
  match v with
  | PStr s => bool_decide (s ∈ literals)
  | _ => false
  end.

(** The items a [for] loop draws from a value. *)
Definition py_iter (v : pyval) : outcome (list pyval) :=
  match v with
  | PList l => Ok l
  | PStr s => Ok ((λ c, PStr (String c EmptyString)) <$> String.list_ascii_of_string s)
  | PDict d => Ok ((λ kv, PStr kv.1) <$> map_to_list d)
  | PNone | PBool _ | PNum _ => Raise TypeError
  end.

(** ** Risk aggregation: [_calculate_risk_score] *)

(** One block
    [if name in results and "risk_score" in results[name]:
         scores.append(results[name]["risk_score"] * weight)]. *)
Definition append_weighted (results : pyresults) (name : string) (weight : Qc)
    (scores : list Qc) : outcome (list Qc) :=
  match results !! name with
  | Some entry =>
      match entry !! "risk_score" with
      | Some v => x ← py_mul v weight; mret (scores ++ [x])
      | None => mret scores
      end
  | None => mret scores
  end.

Definition _calculate_risk_score (results : pyresults) : outcome Qc :=
  let scores := [] in
  scores ← append_weighted results "vulnerability_scanner" #0.3 scores;
  scores ← append_weighted results "policy_analyzer" #0.2 scores;
  scores ← append_weighted results "attack_simulator" #0.25 scores;
  scores ← append_weighted results "compliance_auditor" #0.25 scores;
  mret (match scores with [] => #50 | _ => py_sum scores end).

(** ** Risk classification: [_risk_level] *)

Definition _risk_level (score : Qc) : string :=
  if bool_decide (score < #20) then "LOW"
  else if bool_decide (score < #50) then "MEDIUM"
  else if bool_decide (score < #80) then "HIGH"
  else "CRITICAL".

(** ** Recommendations: [_generate_recommendations] *)

(** A recommendation is a dict with the four fixed keys
    ["priority"], ["module"], ["finding"] and ["action"]. *)
Record recommendation : Type := Recommendation {
  priority : string;
  module : string;
  finding : pyval;
  action : pyval
}.

(** A [for] loop whose body updates an accumulator and may raise. *)
Fixpoint for_each {A S : Type} (body : A → S → outcome S) (items : list A)
    (acc : S) : outcome S :=
  match items with
  | [] => mret acc
  | x :: rest => acc' ← body x acc; for_each body rest acc'
  end.

(** The body of [for vuln in vulns]: [vuln.get] needs a dict. *)
Definition recommend_vuln (vuln : pyval) (recommendations : list recommendation)
    : outcome (list recommendation) :=
  match vuln with
  | PDict vuln =>
      if in_strings (dict_get vuln "severity" PNone) ["critical"; "high"] then
        mret (recommendations ++
              [{| priority := "high";
                  module := "vulnerability_scanner";
                  finding := dict_get vuln "name" (PStr "Unknown vulnerability");
                  action := dict_get vuln "remediation" (PStr "Patch system immediately") |}])
      else mret recommendations
  | _ => Raise AttributeError
  end.

(** The recommendations in the order the loop appends them. *)
Definition collect_recommendations (results : pyresults)
    : outcome (list recommendation) :=
  let recommendations := [] in
  match results !! "vulnerability_scanner" with
  | Some entry =>
      vulns ← py_iter (dict_get entry "vulnerabilities" (PList []));
      for_each recommend_vuln vulns recommendations
  | None => mret recommendations
  end.

(** The sort key
    [{"high": 0, "medium": 1, "low": 2}.get(x["priority"], 3)]. *)
Definition priority_rank (p : string) : nat :=
  default 3%nat
    ((<["high" := 0%nat]> (<["medium" := 1%nat]> (<["low" := 2%nat]> ∅))
       : gmap string nat) !! p).

Definition priority_key (x : recommendation) : nat := priority_rank (priority x).

(** [sorted(l, key=key)]: the built-in sort is stable; it is modelled
    by a stable insertion sort. *)
Fixpoint insert_by {A : Type} (key : A → nat) (x : A) (l : list A) : list A :=
  match l with
  | [] => [x]
  | y :: l' => if decide (key x ≤ key y)%nat then x :: y :: l' else y :: insert_by key x l'
  end.

Definition sorted {A : Type} (key : A → nat) (l : list A) : list A :=
  foldr (insert_by key) [] l.

Definition _generate_recommendations (results : pyresults)
    : outcome (list recommendation) :=
  recommendations ← collect_recommendations results;
  mret (sorted priority_key recommendations).

(** ** The report: [_generate_report] *)

Record report : Type := Report {
  organization : string;
  timestamp : string;
  risk_score : Qc;
  risk_level : string;
  module_results : pyresults;
  recommendations : list recommendation
}.

(** The configuration keys the engine reads. *)
Record configuration : Type := Configuration {
  cfg_organization : string;
  cfg_report_path : string
}.

(** [now] is [datetime.now().isoformat()] at the time of the call. *)
Definition _generate_report (cfg : configuration) (now : string) (results : pyresults)
    : outcome report :=
  risk_score ← _calculate_risk_score results;
  recommendations ← _generate_recommendations results;
  mret {| organization := cfg_organization cfg;
          timestamp := now;
          risk_score := risk_score;
          risk_level := _risk_level risk_score;
          module_results := results;
          recommendations := recommendations |}.

(** ** The assessment modules *)

(** A module exposes [run()], which returns a result dict or raises. *)
Record assessment_module : Type := AssessmentModule {
  run : outcome pydict
}.

(** A dict literal (its keys are distinct in every use below). *)
Definition dict_of (items : list (string * pyval)) : pydict := list_to_map items.

Definition VulnerabilityScanner (scan_time : string) : assessment_module :=
  {| run := Ok (dict_of
       [("status", PStr "completed");
        ("scan_time", PStr scan_time);
        ("risk_score", PNum #35);
        ("vulnerabilities", PList
           [PDict (dict_of
              [("id", PStr "CVE-2023-1234");
               ("name", PStr "SQL Injection Vulnerability");
               ("severity", PStr "high");
               ("affected_systems", PList [PStr "web-server-01"]);
               ("remediation", PStr "Update database middleware")]);
            PDict (dict_of
              [("id", PStr "CVE-2023-5678");
               ("name", PStr "Outdated SSL Certificate");
               ("severity", PStr "medium");
               ("affected_systems", PList [PStr "mail-server"]);
               ("remediation", PStr "Renew SSL certificates")])])]) |}.

Definition PolicyAnalyzer : assessment_module :=
  {| run := Ok (dict_of
       [("status", PStr "completed");
        ("risk_score", PNum #45);
        ("policy_gaps", PList
           [PDict (dict_of
              [("policy", PStr "Password Policy");
               ("status", PStr "outdated");
               ("recommendation", PStr "Implement MFA")]);
            PDict (dict_of
              [("policy", PStr "Data Retention");
               ("status", PStr "missing");
               ("recommendation", PStr "Create data retention policy")])])]) |}.

Definition AttackSimulator : assessment_module :=
  {| run := Ok (dict_of
       [("status", PStr "completed");
        ("risk_score", PNum #60);
        ("successful_attacks", PList
           [PDict (dict_of
              [("vector", PStr "Phishing");
               ("success_rate", PStr "65%");
               ("recommendation", PStr "Implement email filtering")]);
            PDict (dict_of
              [("vector", PStr "Weak Credentials");
               ("success_rate", PStr "40%");
               ("recommendation", PStr "Password policy enforcement")])])]) |}.

Definition ComplianceAuditor : assessment_module :=
  {| run := Ok (dict_of
       [("status", PStr "completed");
        ("risk_score", PNum #30);
        ("frameworks", PList
           [PDict (dict_of
              [("name", PStr "GDPR");
               ("compliance_score", PStr "75%");
               ("gaps", PList [PStr "Data inventory incomplete"])]);
            PDict (dict_of
              [("name", PStr "ISO 27001");
               ("compliance_score", PStr "82%");
               ("gaps", PList [PStr "Missing incident response procedures"])])])]) |}.

Definition ThreatMonitor : assessment_module :=
  {| run := Ok (dict_of
       [("status", PStr "completed");
        ("active_threats", PList
           [PDict (dict_of
              [("name", PStr "APT Group 123");
               ("target_industry", PStr "Finance");
               ("likelihood", PStr "medium")]);
            PDict (dict_of
              [("name", PStr "Ransomware Campaign");
               ("target_industry", PStr "All");
               ("likelihood", PStr "high")])])]) |}.

Definition IncidentResponder : assessment_module :=
  {| run := Ok (dict_of
       [("status", PStr "completed");
        ("average_response_time", PStr "45 minutes");
        ("automation_level", PStr "medium");
        ("recommendations", PList
           [PStr "Implement SOAR platform"; PStr "Update playbooks"])]) |}.

Definition TrainingPlatform : assessment_module :=
  {| run := Ok (dict_of
       [("status", PStr "completed");
        ("employee_completion_rate", PStr "78%");
        ("phishing_simulation_success", PStr "22%");
        ("recommendations", PList
           [PStr "Targeted training for finance department"])]) |}.

(** ** The coordinator: [SentinelAegis] *)

Record SentinelAegis : Type := {
  version : string;
  config : configuration;
  modules : list (string * assessment_module)
}.

(** [__init__], given the loaded configuration; [scan_time] is the
    clock reading the vulnerability scanner will report. *)
Definition SentinelAegis_init (cfg : configuration) (scan_time : string)
    : SentinelAegis :=
  {| version := "1.0.0";
     config := cfg;
     modules :=
       [("vulnerability_scanner", VulnerabilityScanner scan_time);
        ("policy_analyzer", PolicyAnalyzer);
        ("attack_simulator", AttackSimulator);
        ("compliance_auditor", ComplianceAuditor);
        ("threat_monitor", ThreatMonitor);
        ("incident_response", IncidentResponder);
        ("training_platform", TrainingPlatform)] |}.

(** [self.modules[name]] and [name in self.modules]. *)
Fixpoint registry_lookup (name : string) (registry : list (string * assessment_module))
    : option assessment_module :=
  match registry with
  | [] => None
  | (k, m) :: rest => if decide (k = name) then Some m else registry_lookup name rest
  end.

(** The entry [{"status": "error", "message": str(e)}]. *)
Definition error_entry (e : exn) : pydict :=
  dict_of [("status", PStr "error"); ("message", PStr (str e))].

(** One turn of the loop of [run_assessment]:
    [try: results[name] = module.run()
     except Exception as e: results[name] = {...}].
    A module here raises instances of [Exception] only ([exn]), and
    these are caught; [Interruptible.run_modules_from] is the loop for
    modules that may also raise outside [Exception]. *)
Definition run_module (results : pyresults) (item : string * assessment_module)
    : pyresults :=
  match run item.2 with
  | Ok result => <[item.1 := result]> results
  | Raise e => <[item.1 := error_entry e]> results
  end.

Definition run_modules (registry : list (string * assessment_module)) : pyresults :=
  fold_left run_module registry ∅.

(** The world outside the engine: the clock and the file system. *)
Record world : Type := {
  now : string;
  write_report : string → report → outcome string
}.

(** [_save_report]: writes the report under the configured directory
    and returns the file name; a failed write raises. *)
Definition _save_report (w : world) (self : SentinelAegis) (r : report)
    : outcome string :=
  write_report w (cfg_report_path (config self)) r.

Definition run_assessment (w : world) (self : SentinelAegis) : outcome report :=
  let results := run_modules (modules self) in
  report ← _generate_report (config self) (now w) results;
  _ ← _save_report w self report;
  mret report.

(** ** [main] *)

Record arguments : Type := {
  arg_module : option string;
  arg_report : string
}.

(** [main] after [sentinel = SentinelAegis(args.config)]; the result is
    the report whose risk level is printed. *)
Definition main (w : world) (sentinel : SentinelAegis) (args : arguments)
    : outcome report :=
  let sentinel :=
    if decide (arg_report args = "") then sentinel
    else {| version := version sentinel;
            config := {| cfg_organization := cfg_organization (config sentinel);
                         cfg_report_path := arg_report args |};
            modules := modules sentinel |} in
  match arg_module args with
  | Some module_name =>
      match (if decide (module_name = "") then None
             else registry_lookup module_name (modules sentinel)) with
      | Some m =>
          r ← run m;
          let result : pyresults := {[ module_name := r ]} in
          _generate_report (config sentinel) (now w) result
      | None => run_assessment w sentinel
      end
  | None => run_assessment w sentinel
  end.

(** ** Configuration: [_load_config] *)

Definition default_config : pydict :=
  dict_of
    [("organization", PStr "Default Organization");
     ("scan_frequency", PStr "daily");
     ("alert_threshold", PStr "medium");
     ("integrations", PDict ∅);
     ("report_path", PStr "./reports");
     ("log_level", PStr "INFO")].

(** [read_json path] is the file system as [_load_config] meets it:
    [None] when [os.path.exists(path)] is false, otherwise what [open]
    followed by [json.load] gives, a value or an exception.  The merge
    [{**default_config, **user_config}] needs a mapping and raises
    [TypeError] on any other value; every exception is caught.  The
    diagnostic that is printed on the way is not modelled. *)
Definition _load_config (read_json : string → option (outcome pyval))
    (config_path : option string) : pydict :=
  match config_path with
  | Some path =>
      if decide (path = "") then default_config
      else
        match read_json path with
        | Some (Ok (PDict user_config)) => user_config ∪ default_config
        | Some (Ok _) => default_config
        | Some (Raise _) => default_config
        | None => default_config
        end
  | None => default_config
  end.

(** ** The report file: the name [_save_report] builds *)

(** [f"{report_path}/security_assessment_{timestamp}.json"], where
    [timestamp] is [datetime.now().strftime("%Y%m%d_%H%M%S")]. *)
Definition report_filename (report_path timestamp : string) : string :=
  report_path +:+ "/security_assessment_" +:+ timestamp +:+ ".json".

(** * The same code, with what the sections above leave out

    The sections above read a number as an exact rational, a failing
    call as an [Exception], and a value as a tree.  The three sections
    below embed the same functions once more with, in turn, the
    exceptions that [except Exception] lets through, the rounding of
    binary64 arithmetic, and the store of mutable objects; the
    properties relate each of them to the definitions above. *)

(** ** Exceptions outside [Exception] *)

(** The built-in [BaseException]s that are no [Exception]s. *)
Inductive base_exception : Type :=
| KeyboardInterrupt
| SystemExit
| GeneratorExit.

(** How a call ends: it returns or raises an [Exception] ([Finished]),
    or it raises outside [Exception] ([Escaped]). *)
Inductive completion (A : Type) : Type :=
| Finished (o : outcome A)
| Escaped (b : base_exception).
Arguments Finished {A} o.
Arguments Escaped {A} b.

Module Interruptible.

(** A module whose [run()] may also raise outside [Exception]. *)
Record assessment_module : Type := AssessmentModule {
  run : completion pydict
}.

(** The loop of [run_assessment], from the module at the head of
    [registry] on:
    [for name, module in self.modules.items():
         try: results[name] = module.run()
         except Exception as e: results[name] = {...}].
    What [except Exception] does not catch leaves the loop. *)
Fixpoint run_modules_from (registry : list (string * assessment_module))
    (results : pyresults) : completion pyresults :=
  match registry with
  | [] => Finished (Ok results)
  | (name, module) :: rest =>
      match run module with
      | Finished (Ok result) => run_modules_from rest (<[name := result]> results)
      | Finished (Raise e) => run_modules_from rest (<[name := error_entry e]> results)
      | Escaped b => Escaped b
      end
  end.

Definition run_modules (registry : list (string * assessment_module))
    : completion pyresults :=
  run_modules_from registry ∅.

(** [run_assessment], for the configuration and the registry of
    [self]. *)
Definition run_assessment (w : world) (cfg : configuration)
    (registry : list (string * assessment_module)) : completion report :=
  match run_modules registry with
  | Finished (Ok results) =>
      Finished (report ← _generate_report cfg (now w) results;
                _ ← write_report w (cfg_report_path cfg) report;
                mret report)
  | Finished (Raise e) => Finished (Raise e)
  | Escaped b => Escaped b
  end.

End Interruptible.

(** ** Binary floating point *)

Module Binary64.
Local Open Scope Q_scope.

(** The integer nearest to [q], the even one of two that are equally
    near. *)
Definition round_half_even (q : Q) : Z :=
  let f := Qfloor q in
  match Qcompare (q - inject_Z f) 0.5 with
  | Lt => f
  | Gt => (f + 1)%Z
  | Eq => if Z.even f then f else (f + 1)%Z
  end.

(** [floor (log2 |q|)], for [q] other than 0. *)
Definition floor_log2 (q : Q) : Z :=
  let e := (Z.log2 (Z.abs (Qnum q)) - Z.log2 (Zpos (Qden q)))%Z in
  if Qle_bool (2 ^ e) (Qabs q) then e else (e - 1)%Z.

(** The exponent of the unit in the last place at [q]: 53 significant
    bits, and no exponent below that of the subnormal numbers. *)
Definition ulp_exponent (q : Q) : Z := Z.max (floor_log2 q - 52) (-1074).

(** Rounding to the nearest multiple of the unit in the last place,
    ties to even. *)
Definition round (q : Q) : Q :=
  inject_Z (round_half_even (q / 2 ^ ulp_exponent q)) * 2 ^ ulp_exponent q.

(** A binary64 number: a finite one is the rational it denotes (the two
    zeros are one value). *)
Inductive binary64 : Type :=
| Finite (x : Q)
| Infinity (negative : bool)
| NaN.

(** The largest finite binary64 number. *)
Definition largest : Q := inject_Z (2 ^ 53 - 1) * 2 ^ 971.

(** The binary64 number a real result is rounded to. *)
Definition rounded (q : Q) : binary64 :=
  let r := round q in
  if Qle_bool (Qabs r) largest then Finite r else Infinity (negb (Qle_bool 0 q)).

(** [a + b] on floats. *)
Definition add (a b : binary64) : binary64 :=
  match a, b with
  | Finite x, Finite y => rounded (x + y)
  | NaN, _ | _, NaN => NaN
  | Infinity s, Infinity s' => if Bool.eqb s s' then Infinity s else NaN
  | Infinity s, Finite _ | Finite _, Infinity s => Infinity s
  end.

(** [v * w] for a float literal [w]: the literal denotes the nearest
    float; an [int] operand is converted to the nearest float, which
    raises [OverflowError] when it is too large (a float operand is its
    own nearest float); the product is rounded. *)
Definition py_mul (v : pyval) (w : Qc) : outcome binary64 :=
  match as_number v with
  | Some x =>
      match rounded (this x) with
      | Finite x => Ok (rounded (x * round (this w)))
      | _ => Raise OverflowError
      end
  | None => Raise TypeError
  end.

(** [sum(scores)]: starts from 0 and adds from the left, rounding each
    partial sum, as CPython up to 3.11 computes it (later versions
    compensate the rounding of the partial sums). *)
Definition py_sum (scores : list binary64) : binary64 :=
  fold_left add scores (Finite 0).

Definition append_weighted (results : pyresults) (name : string) (weight : Qc)
    (scores : list binary64) : outcome (list binary64) :=
  match results !! name with
  | Some entry =>
      match entry !! "risk_score" with
      | Some v => x ← py_mul v weight; mret (scores ++ [x])
      | None => mret scores
      end
  | None => mret scores
  end.

Definition _calculate_risk_score (results : pyresults) : outcome binary64 :=
  let scores := [] in
  scores ← append_weighted results "vulnerability_scanner" #0.3 scores;
  scores ← append_weighted results "policy_analyzer" #0.2 scores;
  scores ← append_weighted results "attack_simulator" #0.25 scores;
  scores ← append_weighted results "compliance_auditor" #0.25 scores;
  mret (match scores with [] => Finite 50 | _ => py_sum scores end).

End Binary64.

(** ** The store: objects, references and mutation *)

Module Heap.

(** A location of the store. *)
Abbreviation loc := positive.

(** A value: an immutable datum, or a reference to a mutable object. *)
Inductive value : Type :=
| VNone
| VBool (b : bool)
| VNum (x : Qc)
| VStr (s : string)
| VRef (l : loc).

(** A mutable object: a [list], or a [dict] with string keys. *)
Inductive object : Type :=
| OList (items : list value)
| ODict (fields : gmap string value).

Abbreviation heap := (gmap loc object).

Global Instance value_eq_dec : EqDecision value.
Proof. solve_decision. Defined.

(** A computation on the store: it ends with a value or an exception,
    and with the store as it has left it. *)
Definition M (A : Type) : Type := heap → outcome A * heap.

Global Instance M_ret : MRet M := λ A a h, (Ok a, h).
Global Instance M_bind : MBind M := λ A B f m h,
  match m h with
  | (Ok a, h') => f a h'
  | (Raise e, h') => (Raise e, h')
  end.

Definition raise {A : Type} (e : exn) : M A := λ h, (Raise e, h).

(** A computation that does not touch the store. *)
Definition pure {A : Type} (o : outcome A) : M A := λ h, (o, h).

(** A new object, at a location the store does not use. *)
Definition alloc (o : object) : M value := λ h,
  let l := fresh (dom h) in (Ok (VRef l), <[l := o]> h).

(** The object a value refers to. *)
Definition load (v : value) : M (option object) := λ h,
  (Ok (match v with VRef l => h !! l | _ => None end), h).

(** [s in t] on strings. *)
Fixpoint is_substring (s t : string) : bool :=
  String.prefix s t ||
  match t with
  | EmptyString => false
  | String _ t' => is_substring s t'
  end.

(** [key in v]: a key of a dict, an item of a list, a part of a
    string. *)
Definition contains (key : string) (v : value) : M bool :=
  o ← load v;
  match o with
  | Some (ODict fields) => mret (bool_decide (is_Some (fields !! key)))
  | Some (OList items) => mret (bool_decide (VStr key ∈ items))
  | None =>
      match v with
      | VStr s => mret (is_substring key s)
      | _ => raise TypeError
      end
  end.

(** [v[key]]. *)
Definition getitem (v : value) (key : string) : M value :=
  o ← load v;
  match o with
  | Some (ODict fields) =>
      match fields !! key with
      | Some x => mret x
      | None => raise (KeyError key)
      end
  | _ => raise TypeError
  end.

(** [v.get(key, default)]. *)
Definition get (v : value) (key : string) (default : value) : M value :=
  o ← load v;
  match o with
  | Some (ODict fields) =>
      mret (match fields !! key with Some x => x | None => default end)
  | _ => raise AttributeError
  end.

(** [v * w] for a float literal [w]. *)
Definition mul (v : value) (w : Qc) : M Qc :=
  match v with
  | VNum x => mret (x * w)
  | VBool b => mret ((if b then #1 else #0) * w)
  | _ => raise TypeError
  end.

(** [l.append(x)]: the one operation of the engine that writes to an
    object that exists. *)
Definition append (l x : value) : M unit := λ h,
  match l with
  | VRef a =>
      match h !! a with
      | Some (OList items) => (Ok (), <[a := OList (items ++ [x])]> h)
      | _ => (Raise AttributeError, h)
      end
  | _ => (Raise AttributeError, h)
  end.

(** The items a [for] loop draws from a value.  The loops of the engine
    write to no list they run over, so the items are those the list
    holds when the loop starts. *)
Definition iterate (v : value) : M (list value) :=
  o ← load v;
  match o with
  | Some (OList items) => mret items
  | Some (ODict fields) => mret ((λ kv, VStr kv.1) <$> map_to_list fields)
  | None =>
      match v with
      | VStr s => mret ((λ c, VStr (String c EmptyString)) <$> String.list_ascii_of_string s)
      | _ => raise TypeError
      end
  end.

(** [if v:]. *)
Definition truthy (v : value) : M bool :=
  o ← load v;
  mret (match o with
        | Some (OList items) => bool_decide (items ≠ [])
        | Some (ODict fields) => bool_decide (fields ≠ ∅)
        | None =>
            match v with
            | VNone => false
            | VBool b => b
            | VNum x => bool_decide (x ≠ #0)
            | VStr s => bool_decide (s ≠ "")
            | VRef _ => true
            end
        end).

(** [sum(v)]: starts from 0 and adds the items, which must be
    numbers. *)
Definition sum (v : value) : M Qc :=
  items ← iterate v;
  pure (for_each (λ item total,
                    match item with
                    | VNum x => Ok (total + x)
                    | VBool b => Ok (total + (if b then #1 else #0))
                    | _ => Raise TypeError
                    end) items #0).

(** A [for] loop whose body works on the store. *)
Fixpoint for_each {A : Type} (body : A → M unit) (items : list A) : M unit :=
  match items with
  | [] => mret ()
  | x :: rest => _ ← body x; for_each body rest
  end.

(** [sorted(v, key=key)]: the keys of the items are computed first, then
    a new list holds the items in the order of their keys. *)
Fixpoint keys_of (key : value → M nat) (items : list value) : M (list (nat * value)) :=
  match items with
  | [] => mret []
  | x :: rest => k ← key x; keyed ← keys_of key rest; mret ((k, x) :: keyed)
  end.

Definition sorted_by (key : value → M nat) (v : value) : M value :=
  items ← iterate v;
  keyed ← keys_of key items;
  alloc (OList (snd <$> sorted fst keyed)).

(** One block
    [if name in results and "risk_score" in results[name]:
         scores.append(results[name]["risk_score"] * weight)]. *)
Definition append_weighted (results : value) (name : string) (weight : Qc)
    (scores : value) : M unit :=
  present ← contains name results;
  if (present : bool) then
    entry ← getitem results name;
    has_score ← contains "risk_score" entry;
    if (has_score : bool) then
      entry ← getitem results name;
      score ← getitem entry "risk_score";
      x ← mul score weight;
      append scores (VNum x)
    else mret ()
  else mret ().

Definition _calculate_risk_score (results : value) : M Qc :=
  scores ← alloc (OList []);
  _ ← append_weighted results "vulnerability_scanner" #0.3 scores;
  _ ← append_weighted results "policy_analyzer" #0.2 scores;
  _ ← append_weighted results "attack_simulator" #0.25 scores;
  _ ← append_weighted results "compliance_auditor" #0.25 scores;
  some ← truthy scores;
  if (some : bool) then sum scores else mret #50.

(** [v in [s1, s2, ...]] for string literals. *)
Definition in_strings (v : value) (literals : list string) : bool :=
  match v with
  | VStr s => bool_decide (s ∈ literals)
  | _ => false
  end.

(** The body of [for vuln in vulns]. *)
Definition recommend_vuln (recommendations vuln : value) : M unit :=
  severity ← get vuln "severity" VNone;
  if in_strings severity ["critical"; "high"] then
    finding ← get vuln "name" (VStr "Unknown vulnerability");
    action ← get vuln "remediation" (VStr "Patch system immediately");
    recommendation ← alloc (ODict (list_to_map
      [("priority", VStr "high");
       ("module", VStr "vulnerability_scanner");
       ("finding", finding);
       ("action", action)]));
    append recommendations recommendation
  else mret ().

(** The sort key
    [lambda x: {"high": 0, "medium": 1, "low": 2}.get(x["priority"], 3)];
    a list or a dict cannot be looked up in a dict. *)
Definition sort_key (x : value) : M nat :=
  p ← getitem x "priority";
  match p with
  | VStr s => mret (priority_rank s)
  | VRef _ => raise TypeError
  | _ => mret 3%nat
  end.

(** The default [[]] of [.get("vulnerabilities", [])] is a new list,
    made before the call. *)
Definition _generate_recommendations (results : value) : M value :=
  recommendations ← alloc (OList []);
  present ← contains "vulnerability_scanner" results;
  _ ← (if (present : bool) then
         entry ← getitem results "vulnerability_scanner";
         default ← alloc (OList []);
         vulns ← get entry "vulnerabilities" default;
         items ← iterate vulns;
         for_each (recommend_vuln recommendations) items
       else mret ());
  sorted_by sort_key recommendations.

(** The report is a new dict; its ["module_results"] is the value that
    was passed in, a reference to the caller's mapping and no copy. *)
Definition _generate_report (cfg : configuration) (now : string) (results : value)
    : M value :=
  risk_score ← _calculate_risk_score results;
  recommendations ← _generate_recommendations results;
  alloc (ODict (list_to_map
    [("organization", VStr (cfg_organization cfg));
     ("timestamp", VStr now);
     ("risk_score", VNum risk_score);
     ("risk_level", VStr (_risk_level risk_score));
     ("module_results", results);
     ("recommendations", recommendations)])).

End Heap.

(** * Definitions used to state the properties *)

(** ** The aggregator, read as a table *)

(** The names [_calculate_risk_score] looks up. *)
Definition designated_modules : list string :=
  ["vulnerability_scanner"; "policy_analyzer"; "attack_simulator";
   "compliance_auditor"].

(** The weight of each designated module. *)
Definition weight_table : list (string * Qc) :=
  [("vulnerability_scanner", #0.3); ("policy_analyzer", #0.2);
   ("attack_simulator", #0.25); ("compliance_auditor", #0.25)].

(** [results[name]["risk_score"]] when both keys are present. *)
Definition score_field (results : pyresults) (name : string) : option pyval :=
  entry ← results !! name; entry !! "risk_score".

(** What one block of [_calculate_risk_score] appends. *)
Definition contribution (results : pyresults) (name : string) (weight : Qc)
    : outcome (list Qc) :=
  match score_field results name with
  | Some v => x ← py_mul v weight; mret [x]
  | None => mret []
  end.

(** The value returned for the collected scores. *)
Definition sum_or_default (scores : list Qc) : Qc :=
  match scores with
  | [] => #50
  | _ => py_sum scores
  end.

(** The aggregate the code computes: a designated module counts when
    its entry is present with a numeric risk score. *)
Definition present_score (results : pyresults) (item : string * Qc) : list Qc :=
  match score_field results item.1 ≫= as_number with
  | Some x => [x * item.2]
  | None => []
  end.

Definition weighted_risk_score (results : pyresults) : Qc :=
  sum_or_default (flat_map (present_score results) weight_table).

(** ** The aggregate as the specification words it *)

(** [status = completed] of an entry. *)
Definition status_completed (entry : pydict) : bool :=
  match entry !! "status" with
  | Some (PStr s) => bool_decide (s = "completed")
  | _ => false
  end.

(** The aggregate as the specification words it: a designated module
    counts when its entry is present with status completed and a
    numeric risk score. *)
Definition claimed_contribution (results : pyresults) (item : string * Qc)
    : list Qc :=
  match results !! item.1 with
  | Some entry =>
      match entry !! "risk_score" ≫= as_number with
      | Some x => if status_completed entry then [x * item.2] else []
      | None => []
      end
  | None => []
  end.

Definition claimed_risk_score (results : pyresults) : Qc :=
  sum_or_default (flat_map (claimed_contribution results) weight_table).

(** ** Recommendations *)

(** The order [sorted] establishes. *)
Definition key_le {A : Type} (key : A → nat) (x y : A) : Prop :=
  (key x ≤ key y)%nat.

(** The severity of a finding, when it is a string. *)
Definition severity (vuln : pydict) : option string :=
  match vuln !! "severity" with
  | Some (PStr s) => Some s
  | _ => None
  end.

(** One recommendation for a finding of severity critical or high,
    none for any other finding. *)
Definition emitted (vuln : pydict) : list recommendation :=
  if bool_decide (severity vuln = Some "critical" ∨ severity vuln = Some "high") then
    [{| priority := "high";
        module := "vulnerability_scanner";
        finding := default (PStr "Unknown vulnerability") (vuln !! "name");
        action := default (PStr "Patch system immediately") (vuln !! "remediation") |}]
  else [].

(** ** Modules that fail *)

(** A module whose [run()] raises an exception with the given text. *)
Definition failing_module (text : string) : assessment_module :=
  {| run := Raise (Raised text) |}.

(** [registry[name] = m] for a name already registered. *)
Definition registry_set (name : string) (m : assessment_module)
    (registry : list (string * assessment_module))
    : list (string * assessment_module) :=
  (λ item, if decide (item.1 = name) then (name, m) else item) <$> registry.

(** The coordinator with one of its modules replaced. *)
Definition with_module (name : string) (m : assessment_module)
    (self : SentinelAegis) : SentinelAegis :=
  {| version := version self;
     config := config self;
     modules := registry_set name m (modules self) |}.

(** The entry the loop of [run_assessment] stores for a module. *)
Definition stored_entry (m : assessment_module) : pydict :=
  match run m with
  | Ok result => result
  | Raise e => error_entry e
  end.

(** The registry entry of a module that [fails] names, replaced by a
    module raising with the given text. *)
Definition fail_item (fails : string → option string)
    (item : string * assessment_module) : string * assessment_module :=
  match fails item.1 with
  | Some text => (item.1, failing_module text)
  | None => item
  end.

(** The coordinator in which the modules that [fails] names raise. *)
Definition with_failures (fails : string → option string) (self : SentinelAegis)
    : SentinelAegis :=
  {| version := version self;
     config := config self;
     modules := fail_item fails <$> modules self |}.

(** ** The order of the risk levels *)

Definition level_rank (level : string) : nat :=
  if decide (level = "LOW") then 0
  else if decide (level = "MEDIUM") then 1
  else if decide (level = "HIGH") then 2
  else 3.

(** ** A registry without one of its modules *)

Definition without_module (name : string)
    (registry : list (string * assessment_module))
    : list (string * assessment_module) :=
  filter (λ item, item.1 ≠ name) registry.

(** ** What the recommendation builder reads *)

(** [results["vulnerability_scanner"].get("vulnerabilities", [])], and
    the empty list when the scanner has no entry. *)
Definition findings (results : pyresults) : pyval :=
  match results !! "vulnerability_scanner" with
  | Some entry => dict_get entry "vulnerabilities" (PList [])
  | None => PList []
  end.

Definition is_dict (v : pyval) : Prop := ∃ d, v = PDict d.

(** ** Modules that raise outside [Exception] *)

(** A module of the sections above, which raises [Exception]s only. *)
Definition catchable (m : assessment_module) : Interruptible.assessment_module :=
  {| Interruptible.run := Finished (run m) |}.

(** A module whose [run()] raises outside [Exception]. *)
Definition interrupted_module (b : base_exception) : Interruptible.assessment_module :=
  {| Interruptible.run := Escaped b |}.

Definition never_escapes (m : Interruptible.assessment_module) : Prop :=
  ∀ b, Interruptible.run m ≠ Escaped b.

(** ** The aggregator in binary64 *)

(** What one block of [Binary64._calculate_risk_score] appends. *)
Definition contribution64 (results : pyresults) (name : string) (weight : Qc)
    : outcome (list Binary64.binary64) :=
  match score_field results name with
  | Some v => x ← Binary64.py_mul v weight; mret [x]
  | None => mret []
  end.

Definition sum_or_default64 (scores : list Binary64.binary64) : Binary64.binary64 :=
  match scores with
  | [] => Binary64.Finite 50
  | _ => Binary64.py_sum scores
  end.

(** The exact sum of a list of rationals. *)
Definition total (l : list Q) : Q := foldr Qplus 0%Q l.

(** A rounded product [p] beside the exact product [e] of a score
    between 0 and 100 and a weight. *)
Definition close (p e : Q) : Prop :=
  (Qabs (p - e) <= 3 * 2 ^ (-46) ∧ 0 <= e)%Q.

(** The weights the source multiplies by. *)
Definition source_weights : list Qc := [(#0.3); (#0.2); (#0.25)].

(** Every risk score a designated module carries is a number between 0
    and 100. *)
Definition on_scale (results : pyresults) : Prop :=
  ∀ name v, name ∈ designated_modules → score_field results name = Some v →
    ∃ x, as_number v = Some x ∧ #0 ≤ x ∧ x ≤ #100.

(** An [int] too large to be converted to a float. *)
Definition overflows (x : Qc) : bool :=
  match Binary64.rounded (this x) with
  | Binary64.Finite _ => false
  | _ => true
  end.

(** A risk score the aggregator cannot multiply: no number, or an [int]
    too large for a float. *)
Definition bad_score (v : pyval) : Prop :=
  as_number v = None ∨ ∃ x, as_number v = Some x ∧ overflows x = true.

Definition raises {A : Type} (o : outcome A) : Prop := ∃ e, o = Raise e.

(** ** The kernel's binary64 numbers, to compare [Binary64.round] with *)

(** The rational a primitive float denotes. *)
Definition value_of (f : PrimFloat.float) : option Q :=
  match Prim2SF f with
  | S754_zero _ => Some 0%Q
  | S754_finite negative m e =>
      Some ((if negative then -1 else 1) * inject_Z (Zpos m) * 2 ^ e)%Q
  | _ => None
  end.

Definition same_value (f : PrimFloat.float) (q : Q) : bool :=
  match value_of f with
  | Some x => Qeq_bool x q
  | None => false
  end.

Definition float_of_Z (n : Z) : PrimFloat.float :=
  PrimFloat.of_uint63 (Uint63.of_Z n).

(** The integer scores from 0 to 100. *)
Definition whole_scores : list Z := (λ n, Z.of_nat n) <$> seq 0 101.

(** [n * w], computed by the kernel and by [Binary64.round]. *)
Definition product_agrees (w : PrimFloat.float) (wq : Q) (n : Z) : bool :=
  same_value (PrimFloat.mul (float_of_Z n) w)
             (Binary64.round (Binary64.round (inject_Z n) * Binary64.round wq)).

(** [sum([n * w1, m * w2])], computed by the kernel and by
    [Binary64.round]. *)
Definition sum_agrees (w1 w2 : PrimFloat.float) (q1 q2 : Q) (n m : Z) : bool :=
  same_value
    (PrimFloat.add (PrimFloat.add 0 (PrimFloat.mul (float_of_Z n) w1))
                   (PrimFloat.mul (float_of_Z m) w2))
    (Binary64.round
       (Binary64.round
          (0 + Binary64.round (Binary64.round (inject_Z n) * Binary64.round q1))
        + Binary64.round (Binary64.round (inject_Z m) * Binary64.round q2))).

(** ** Computations that leave the objects of the caller alone *)

(** [m] leaves the objects at the locations [L] as they are, frees no
    location, and returns values that satisfy [Q]. *)
Definition preserves {A : Type} (L : gset positive) (m : Heap.M A) (Q : A → Prop)
    : Prop :=
  ∀ h, L ⊆ dom h →
    dom h ⊆ dom (m h).2 ∧
    (∀ l, l ∈ L → (m h).2 !! l = h !! l) ∧
    (∀ a, (m h).1 = Ok a → Q a).

Definition anything {A : Type} (a : A) : Prop := True.

(** A reference to an object that is none of those at [L]. *)
Definition new_object (L : gset positive) (v : Heap.value) : Prop :=
  ∃ l, v = Heap.VRef l ∧ l ∉ L.

(** A store after two modules have run: the results mapping is the
    object at location 1; the vulnerability scanner's entry (location
    2) carries the score 35 and a list (location 3) of two findings
    (locations 4 and 5); the policy analyzer's entry (location 6)
    carries the score 45. *)
Definition example_heap : gmap positive Heap.object :=
  list_to_map
    [(1%positive, Heap.ODict (list_to_map
        [("vulnerability_scanner", Heap.VRef 2); ("policy_analyzer", Heap.VRef 6)]));
     (2%positive, Heap.ODict (list_to_map
        [("status", Heap.VStr "completed");
         ("risk_score", Heap.VNum #35);
         ("vulnerabilities", Heap.VRef 3)]));
     (3%positive, Heap.OList [Heap.VRef 4; Heap.VRef 5]);
     (4%positive, Heap.ODict (list_to_map
        [("name", Heap.VStr "SQL Injection Vulnerability");
         ("severity", Heap.VStr "high");
         ("remediation", Heap.VStr "Update database middleware")]));
     (5%positive, Heap.ODict (list_to_map
        [("name", Heap.VStr "Outdated SSL Certificate");
         ("severity", Heap.VStr "medium");
         ("remediation", Heap.VStr "Renew SSL certificates")]));
     (6%positive, Heap.ODict (list_to_map
        [("status", Heap.VStr "completed"); ("risk_score", Heap.VNum #45)]))].

(** ** Tactics *)

(** Turns an order goal on [Qc] with literals into one on [Q]. *)
Ltac qc_order :=
  unfold Qclt, Qcle in *; cbn [this Q2Qc] in *;
  repeat match goal with
  | |- context [Qred ?q] =>
      let r := eval vm_compute in (Qred q) in change (Qred q) with r
  | H : context [Qred ?q] |- _ =>
      let r := eval vm_compute in (Qred q) in change (Qred q) with r in H
  end.

(** Closes an equation between closed rationals. *)
Ltac qc_eq := apply Qc_is_canon; vm_compute; reflexivity.

(** Turns a goal of linear arithmetic on [Qc] into one on [Q]. *)
Ltac qc_linear :=
  unfold Qcle, Qclt, Qcplus, Qcmult, Q2Qc in *; cbn [this] in *;
  repeat match goal with
  | H : context [Qred ?q] |- _ => rewrite (Qred_correct q) in H
  | |- context [Qred ?q] => rewrite (Qred_correct q)
  end;
  lra.

(** Membership of a literal name in [designated_modules], and the four
    cases of a hypothesis of that form. *)
Ltac designated := unfold designated_modules; rewrite !elem_of_cons; auto 6.

Ltac designated_inv H :=
  unfold designated_modules in H; rewrite !elem_of_cons, elem_of_nil in H;
  destruct H as [->|[->|[->|[->|[]]]]].

(** Turns bounds on absolute values into pairs of inequalities. *)
Ltac qabs :=
  repeat match goal with
  | H : (Qabs _ <= _)%Q |- _ => apply Qabs_Qle_condition in H
  | |- (Qabs _ <= _)%Q => apply Qabs_Qle_condition
  end.

(** Writes the powers of two of the error bounds as fractions. *)
Ltac numerals :=
  change (2 ^ 7)%Q with 128%Q in *;
  change (2 ^ (7 - 53))%Q with (Qmake 1 70368744177664) in *;
  change (2 ^ (-46))%Q with (Qmake 1 70368744177664) in *;
  change (2 ^ (-42))%Q with (Qmake 1 4398046511104) in *;
  change (2 ^ (-41))%Q with (Qmake 1 2199023255552) in *.

(** Evaluates the rational under a literal of [Qc]. *)
Ltac this_literals :=
  repeat match goal with
  | H : context [this (Q2Qc ?q)] |- _ =>
      let r := eval vm_compute in (this (Q2Qc q)) in
      change (this (Q2Qc q)) with r in H
  | |- context [this (Q2Qc ?q)] =>
      let r := eval vm_compute in (this (Q2Qc q)) in
      change (this (Q2Qc q)) with r
  end.



(** * Properties *)

(** ** Arithmetic on canonical rationals *)

Lemma py_sum_from (scores : list Qc) (start : Qc) :
  fold_left Qcplus scores start = start + py_sum scores.
Proof.
  unfold py_sum. revert start.
  induction scores as [|x scores IH]; intros start; simpl.
  - ring.
  - rewrite IH, (IH (#0 + x)). ring.
Qed.

Lemma py_sum_nil : py_sum [] = #0.
Proof. reflexivity. Qed.

Lemma py_sum_cons (x : Qc) (scores : list Qc) :
  py_sum (x :: scores) = x + py_sum scores.
Proof.
  unfold py_sum at 1. simpl. rewrite py_sum_from. ring.
Qed.

Lemma py_sum_app (l1 l2 : list Qc) : py_sum (l1 ++ l2) = py_sum l1 + py_sum l2.
Proof.
  induction l1 as [|x l1 IH]; simpl.
  - rewrite py_sum_nil. ring.
  - rewrite !py_sum_cons, IH. ring.
Qed.

(** ** The aggregator as a sum over the four designated modules *)

Lemma append_weighted_contribution (results : pyresults) (name : string)
    (weight : Qc) (scores : list Qc) :
  append_weighted results name weight scores =
  (tail ← contribution results name weight; mret (scores ++ tail)).
Proof.
  unfold append_weighted, contribution, score_field.
  destruct (results !! name) as [entry|]; simpl.
  - destruct (entry !! "risk_score") as [v|]; simpl.
    + destruct (py_mul v weight); reflexivity.
    + by rewrite app_nil_r.
  - by rewrite app_nil_r.
Qed.

Lemma calculate_risk_score_unfold (results : pyresults) :
  _calculate_risk_score results =
  (t1 ← contribution results "vulnerability_scanner" #0.3;
   t2 ← contribution results "policy_analyzer" #0.2;
   t3 ← contribution results "attack_simulator" #0.25;
   t4 ← contribution results "compliance_auditor" #0.25;
   mret (sum_or_default (t1 ++ t2 ++ t3 ++ t4))).
Proof.
  unfold _calculate_risk_score. rewrite !append_weighted_contribution.
  destruct (contribution results "vulnerability_scanner" _) as [t1|]; simpl; [|done].
  rewrite !append_weighted_contribution.
  destruct (contribution results "policy_analyzer" _) as [t2|]; simpl; [|done].
  rewrite !append_weighted_contribution.
  destruct (contribution results "attack_simulator" _) as [t3|]; simpl; [|done].
  rewrite !append_weighted_contribution.
  destruct (contribution results "compliance_auditor" _) as [t4|]; simpl; [|done].
  by rewrite <- !app_assoc.
Qed.

(** The aggregate depends on the results only through the four
    [risk_score] fields it reads. *)
Lemma calculate_risk_score_fields (r1 r2 : pyresults) :
  (∀ name, name ∈ designated_modules → score_field r1 name = score_field r2 name) →
  _calculate_risk_score r1 = _calculate_risk_score r2.
Proof.
  intros H. rewrite !calculate_risk_score_unfold. unfold contribution.
  rewrite !(H _) by (unfold designated_modules; set_solver).
  reflexivity.
Qed.

Lemma threat_monitor_not_designated : "threat_monitor" ∉ designated_modules.
Proof.
  unfold designated_modules. rewrite !not_elem_of_cons.
  split_and!; try done. apply not_elem_of_nil.
Qed.

(** ** C3: the risk classifier *)

(** C3.  For every score [s], [_risk_level] answers LOW exactly when
    [s < 20], MEDIUM exactly when [20 <= s < 50], HIGH exactly when
    [50 <= s < 80] and CRITICAL exactly when [80 <= s]; the scores 20,
    50 and 80 themselves are MEDIUM, HIGH and CRITICAL. *)
Theorem risk_level_bands (s : Qc) :
  (_risk_level s = "LOW" ↔ s < #20) ∧
  (_risk_level s = "MEDIUM" ↔ #20 ≤ s ∧ s < #50) ∧
  (_risk_level s = "HIGH" ↔ #50 ≤ s ∧ s < #80) ∧
  (_risk_level s = "CRITICAL" ↔ #80 ≤ s) ∧
  _risk_level #20 = "MEDIUM" ∧
  _risk_level #50 = "HIGH" ∧
  _risk_level #80 = "CRITICAL".
Proof.
  split_and!; try reflexivity; unfold _risk_level;
    repeat case_bool_decide; qc_order;
    split; intros; try done; try lra; destruct_and?; lra.
Qed.

(** ** C7: modules outside the designated four do not count *)

(** C7.  Two results mappings that agree on the entries of the four
    designated modules have the same aggregate risk score, whatever the
    other modules' entries hold. *)
Theorem aggregate_ignores_other_modules (r1 r2 : pyresults) :
  (∀ name, name ∈ designated_modules → r1 !! name = r2 !! name) →
  _calculate_risk_score r1 = _calculate_risk_score r2.
Proof.
  intros H. apply calculate_risk_score_fields.
  intros name Hname. unfold score_field. by rewrite (H name Hname).
Qed.

Lemma aggregate_ignores_other_modules_witness :
  let r1 : pyresults :=
    {[ "vulnerability_scanner" := dict_of [("risk_score", PNum #35)] ]} in
  let r2 : pyresults :=
    <["threat_monitor" := dict_of [("risk_score", PNum #99)]]> r1 in
  _calculate_risk_score r1 = _calculate_risk_score r2.
Proof.
  intros r1 r2. apply (aggregate_ignores_other_modules r1 r2).
  intros name Hname. unfold r2. rewrite lookup_insert_ne; [done|].
  intros <-. by apply threat_monitor_not_designated.
Defined.

(** ** Linearity in the vulnerability scanner's score, in exact arithmetic *)

Lemma contribution_insert_ne (results : pyresults) (name other : string)
    (entry : pydict) (weight : Qc) :
  other ≠ name →
  contribution (<[other := entry]> results) name weight =
  contribution results name weight.
Proof.
  intros Hne. unfold contribution, score_field.
  by rewrite lookup_insert_ne.
Qed.

(** When the vulnerability scanner's entry carries a numeric risk
    score [s] and that score alone is changed to [s + Δ], the exact
    aggregate changes from [a] to [a + 0.3 * Δ]. *)
Lemma aggregate_linear_exact
    (results : pyresults) (entry : pydict) (v v' : pyval) (s Δ a : Qc) :
  results !! "vulnerability_scanner" = Some entry →
  entry !! "risk_score" = Some v →
  as_number v = Some s →
  as_number v' = Some (s + Δ) →
  _calculate_risk_score results = Ok a →
  _calculate_risk_score
    (<["vulnerability_scanner" := <["risk_score" := v']> entry]> results)
  = Ok (a + #0.3 * Δ).
Proof.
  intros Hentry Hv Hs Hs'. rewrite !calculate_risk_score_unfold.
  rewrite !(contribution_insert_ne _ _ "vulnerability_scanner") by done.
  assert (contribution results "vulnerability_scanner" #0.3 = Ok [s * #0.3]) as ->.
  { unfold contribution, score_field, py_mul. rewrite Hentry. simpl.
    by rewrite Hv, Hs. }
  assert (contribution
            (<["vulnerability_scanner" := <["risk_score" := v']> entry]> results)
            "vulnerability_scanner" #0.3 = Ok [(s + Δ) * #0.3]) as ->.
  { unfold contribution, score_field, py_mul. rewrite lookup_insert_eq. simpl.
    by rewrite lookup_insert_eq, Hs'. }
  destruct (contribution results "policy_analyzer" _) as [t2|]; simpl; [|done].
  destruct (contribution results "attack_simulator" _) as [t3|]; simpl; [|done].
  destruct (contribution results "compliance_auditor" _) as [t4|]; simpl; [|done].
  intros [= <-]. f_equal. rewrite !py_sum_cons. ring.
Qed.

(** ** C9: the four stub scores *)

(** C9.  When the four designated modules report the risk scores 35,
    45, 60 and 30, the aggregate is 42 and its level is MEDIUM. *)
Theorem stub_scores_aggregate_to_42 (results : pyresults) :
  score_field results "vulnerability_scanner" = Some (PNum #35) →
  score_field results "policy_analyzer" = Some (PNum #45) →
  score_field results "attack_simulator" = Some (PNum #60) →
  score_field results "compliance_auditor" = Some (PNum #30) →
  _calculate_risk_score results = Ok #42 ∧ _risk_level #42 = "MEDIUM".
Proof.
  intros H1 H2 H3 H4. split; [|reflexivity].
  rewrite calculate_risk_score_unfold. unfold contribution.
  rewrite H1, H2, H3, H4. simpl. f_equal. qc_eq.
Qed.

Lemma stub_scores_aggregate_to_42_witness :
  _calculate_risk_score
    (run_modules (modules (SentinelAegis_init (Configuration "Default Organization" "./reports") "2024-01-01T00:00:00")))
  = Ok #42 ∧ _risk_level #42 = "MEDIUM".
Proof.
  apply stub_scores_aggregate_to_42; reflexivity.
Defined.

(** ** C1: which entries the aggregator counts *)

Lemma contribution_numeric (results : pyresults) (name : string) (weight : Qc) :
  (∀ v, score_field results name = Some v → is_Some (as_number v)) →
  contribution results name weight = Ok (present_score results (name, weight)).
Proof.
  intros Hnum. unfold contribution, present_score, py_mul. simpl.
  destruct (score_field results name) as [v|]; simpl; [|done].
  destruct (Hnum v eq_refl) as [x ->]. reflexivity.
Qed.

Lemma score_field_set_status (results : pyresults) (name : string)
    (entry : pydict) (st : pyval) (other : string) :
  results !! name = Some entry →
  score_field (<[name := <["status" := st]> entry]> results) other =
  score_field results other.
Proof.
  intros Hentry. unfold score_field.
  destruct (decide (name = other)) as [<-|Hne].
  - rewrite lookup_insert_eq, Hentry. simpl. by rewrite lookup_insert_ne.
  - by rewrite lookup_insert_ne.
Qed.

(** C1, as the claim states it, fails: an entry with status error that
    carries a risk score of 40 is counted (aggregate 12, not the default
    50 of a mapping in which nothing counts). *)
Lemma error_entry_with_score_is_counted :
  let results : pyresults :=
    {[ "vulnerability_scanner" :=
         dict_of [("status", PStr "error"); ("risk_score", PNum #40)] ]} in
  _calculate_risk_score results = Ok #12 ∧
  claimed_risk_score results = #50 ∧
  _calculate_risk_score results ≠ Ok (claimed_risk_score results).
Proof.
  intros results.
  assert (_calculate_risk_score results = Ok #12) as Hcode.
  { vm_compute. f_equal; try (apply Qc_is_canon; reflexivity). }
  assert (claimed_risk_score results = #50) as Hclaim by reflexivity.
  split_and!; [done..|].
  rewrite Hcode, Hclaim. intros H. injection H as H. discriminate H.
Qed.

(** C1, amended.  When every risk score the designated modules carry is
    numeric, the aggregate is the sum of [risk_score * weight] over the
    designated modules whose entry is present and carries a risk score
    (50 when there is none); the status of an entry plays no part. *)
Theorem aggregate_sums_present_scores (results : pyresults) :
  (∀ name v, name ∈ designated_modules → score_field results name = Some v →
             is_Some (as_number v)) →
  _calculate_risk_score results = Ok (weighted_risk_score results) ∧
  (∀ name entry st, results !! name = Some entry →
     _calculate_risk_score (<[name := <["status" := st]> entry]> results) =
     _calculate_risk_score results).
Proof.
  intros Hnum. split.
  - rewrite calculate_risk_score_unfold.
    rewrite !contribution_numeric
      by (intros v; apply Hnum; unfold designated_modules; set_solver).
    unfold weighted_risk_score, weight_table. simpl. by rewrite app_nil_r.
  - intros name entry st Hentry. apply calculate_risk_score_fields.
    intros other _. by apply score_field_set_status.
Qed.

Lemma aggregate_sums_present_scores_witness :
  let results : pyresults :=
    {[ "vulnerability_scanner" :=
         dict_of [("status", PStr "error"); ("risk_score", PNum #40)] ]} in
  _calculate_risk_score results = Ok (weighted_risk_score results) ∧
  (∀ name entry st, results !! name = Some entry →
     _calculate_risk_score (<[name := <["status" := st]> entry]> results) =
     _calculate_risk_score results).
Proof.
  intros results. apply (aggregate_sums_present_scores results).
  intros name v _. unfold score_field, results.
  destruct (decide (name = "vulnerability_scanner")) as [->|Hne].
  - rewrite lookup_singleton_eq. simpl. intros [= <-]. by eexists.
  - by rewrite lookup_singleton_ne.
Defined.

(** ** C4: the default score and its level *)

(** When no designated module carries a risk score the aggregate is the
    default 50. *)
Lemma aggregate_default_50 (results : pyresults) :
  (∀ name, name ∈ designated_modules → score_field results name = None) →
  _calculate_risk_score results = Ok #50.
Proof.
  intros Hnone. rewrite calculate_risk_score_unfold. unfold contribution.
  rewrite !Hnone by (unfold designated_modules; set_solver).
  reflexivity.
Qed.

Lemma aggregate_default_50_witness :
  _calculate_risk_score {[ "threat_monitor" := dict_of [("risk_score", PNum #99)] ]}
  = Ok #50.
Proof.
  apply aggregate_default_50. intros name Hname. unfold score_field.
  rewrite lookup_singleton_ne; [done|].
  intros <-. by apply threat_monitor_not_designated.
Defined.

(** C4.  Restricted mode on [threat_monitor] alone: the aggregate is the
    default 50, and the level [_risk_level] gives to 50 is HIGH, because
    [50 < 50] is false; the comment beside the default reads "Default
    medium risk if no scores". *)
Theorem threat_monitor_alone_is_high (w : world) (cfg : configuration)
    (scan_time : string) :
  ∃ rep,
    main w (SentinelAegis_init cfg scan_time)
         {| arg_module := Some "threat_monitor"; arg_report := "./reports" |}
    = Ok rep ∧
    risk_score rep = #50 ∧
    risk_level rep = "HIGH" ∧
    recommendations rep = [].
Proof.
  eexists. split; [reflexivity|]. split_and!; reflexivity.
Qed.

(** ** C2: failure isolation *)

(** C2.  With a [threat_monitor] whose [run()] raises, the full
    assessment records the error entry for that module and runs the
    others, while restricted mode ([--module threat_monitor]) lets the
    exception escape from [main]: that path calls [run()] outside any
    [try]. *)
Theorem restricted_mode_propagates_failure (w : world) (cfg : configuration)
    (scan_time text : string) :
  let sentinel :=
    with_module "threat_monitor" (failing_module text)
                (SentinelAegis_init cfg scan_time) in
  run_modules (modules sentinel) !! "threat_monitor"
    = Some (dict_of [("status", PStr "error"); ("message", PStr text)]) ∧
  run_modules (modules sentinel) !! "training_platform"
    = Some (dict_of
       [("status", PStr "completed");
        ("employee_completion_rate", PStr "78%");
        ("phishing_simulation_success", PStr "22%");
        ("recommendations", PList
           [PStr "Targeted training for finance department"])]) ∧
  main w sentinel
       {| arg_module := Some "threat_monitor"; arg_report := "./reports" |}
  = Raise (Raised text).
Proof.
  intros sentinel. split_and!; reflexivity.
Qed.

(** ** The stable sort *)

Section sorted_by_key.
Context {A : Type} (key : A → nat).

Lemma insert_by_perm (x : A) (l : list A) : insert_by key x l ≡ₚ x :: l.
Proof.
  induction l as [|y l IH]; simpl; [done|].
  case_decide; [done|]. rewrite IH. apply Permutation_swap.
Qed.

Lemma sorted_perm (l : list A) : sorted key l ≡ₚ l.
Proof.
  induction l as [|x l IH]; simpl; [done|].
  by rewrite insert_by_perm, IH.
Qed.

Lemma insert_by_sorted (x : A) (l : list A) :
  StronglySorted (key_le key) l → StronglySorted (key_le key) (insert_by key x l).
Proof.
  induction 1 as [|y l Hl IH Hy]; simpl.
  - repeat constructor.
  - case_decide as Hxy.
    + constructor; [by constructor|]. constructor; [done|].
      rewrite Forall_forall in Hy |- *. unfold key_le in *.
      intros z Hz. specialize (Hy z Hz). lia.
    + constructor; [done|]. rewrite insert_by_perm. constructor; [|done].
      unfold key_le. lia.
Qed.

Lemma sorted_sorted (l : list A) : StronglySorted (key_le key) (sorted key l).
Proof.
  induction l as [|x l IH]; simpl; [constructor|].
  by apply insert_by_sorted.
Qed.

(** Stability: the elements of any one key keep their order. *)
Lemma insert_by_filter (k : nat) (x : A) (l : list A) :
  filter (λ y, key y = k) (insert_by key x l) = filter (λ y, key y = k) (x :: l).
Proof.
  induction l as [|y l IH]; simpl; [done|].
  case_decide as Hxy; [done|].
  rewrite !filter_cons in *. rewrite IH.
  repeat case_decide; try done; lia.
Qed.

Lemma sorted_stable (k : nat) (l : list A) :
  filter (λ y, key y = k) (sorted key l) = filter (λ y, key y = k) l.
Proof.
  induction l as [|x l IH]; simpl; [done|].
  rewrite insert_by_filter, !filter_cons, IH. done.
Qed.

(** A list that is already in order is returned as it is. *)
Lemma sorted_id (l : list A) : StronglySorted (key_le key) l → sorted key l = l.
Proof.
  induction 1 as [|x l Hl IH Hx]; simpl; [done|].
  rewrite IH. destruct Hx as [|y l Hxy _]; simpl; [done|].
  by rewrite decide_True.
Qed.

Lemma sorted_pairs (l : list A) (i j : nat) (a b : A) :
  StronglySorted (key_le key) l → (i < j)%nat →
  l !! i = Some a → l !! j = Some b → (key a ≤ key b)%nat.
Proof.
  intros Hl. revert i j. induction Hl as [|x l Hl IH Hx]; intros i j Hij Ha Hb.
  - by rewrite lookup_nil in Ha.
  - destruct j as [|j]; [lia|]. destruct i as [|i]; simpl in *.
    + injection Ha as <-. rewrite Forall_forall in Hx.
      apply Hx. by eapply list_elem_of_lookup_2.
    + apply (IH i j); [lia|done..].
Qed.

End sorted_by_key.

(** The rank table of the sort key. *)
Lemma priority_rank_table (p : string) :
  priority_rank "high" = 0%nat ∧
  priority_rank "medium" = 1%nat ∧
  priority_rank "low" = 2%nat ∧
  (p ∉ ["high"; "medium"; "low"] → priority_rank p = 3%nat).
Proof.
  split_and!; try reflexivity.
  intros Hp. unfold priority_rank.
  rewrite !lookup_insert_ne, lookup_empty; [done|..]; intros <-; set_solver.
Qed.

(** ** C5: the order of the recommendations *)

(** C5.  The list the builder returns is in the order of the priority
    rank (high 0, medium 1, low 2, anything else 3); the recommendations
    of any one rank stand in the order the loop generated them; and no
    medium recommendation stands before a high one. *)
Theorem recommendations_sorted_by_priority (results : pyresults)
    (recs : list recommendation) :
  _generate_recommendations results = Ok recs →
  ∃ generated,
    collect_recommendations results = Ok generated ∧
    StronglySorted (λ a b, (priority_key a ≤ priority_key b)%nat) recs ∧
    (∀ k, filter (λ x, priority_key x = k) recs =
          filter (λ x, priority_key x = k) generated) ∧
    (∀ i j a b, (i < j)%nat → recs !! i = Some a → recs !! j = Some b →
                priority a = "medium" → priority b ≠ "high") ∧
    (∀ p, priority_rank "high" = 0%nat ∧ priority_rank "medium" = 1%nat ∧
          priority_rank "low" = 2%nat ∧
          (p ∉ ["high"; "medium"; "low"] → priority_rank p = 3%nat)).
Proof.
  unfold _generate_recommendations. intros Hrecs.
  destruct (collect_recommendations results) as [generated|]; [|done].
  simpl in Hrecs. injection Hrecs as <-.
  exists generated. split_and!.
  - done.
  - apply (sorted_sorted priority_key).
  - intros k. apply sorted_stable.
  - intros i j a b Hij Ha Hb Hmedium Hhigh.
    pose proof (sorted_pairs priority_key _ i j a b
                  (sorted_sorted priority_key generated) Hij Ha Hb) as Hle.
    unfold priority_key in Hle. rewrite Hmedium, Hhigh in Hle.
    vm_compute in Hle. lia.
  - apply priority_rank_table.
Qed.

Lemma recommendations_sorted_by_priority_witness :
  let results : pyresults :=
    {[ "vulnerability_scanner" :=
         dict_of [("vulnerabilities", PList
            [PDict (dict_of [("name", PStr "Remote code execution");
                             ("severity", PStr "critical")]);
             PDict (dict_of [("name", PStr "Outdated SSL Certificate");
                             ("severity", PStr "medium")]);
             PDict (dict_of [("name", PStr "SQL Injection Vulnerability");
                             ("severity", PStr "high")]);
             PDict (dict_of [("name", PStr "Default credentials");
                             ("severity", PStr "critical")])])] ]} in
  let recommend := λ name,
    {| priority := "high";
       module := "vulnerability_scanner";
       finding := PStr name;
       action := PStr "Patch system immediately" |} in
  let recs :=
    [recommend "Remote code execution";
     recommend "SQL Injection Vulnerability";
     recommend "Default credentials"] in
  ∃ generated,
    collect_recommendations results = Ok generated ∧
    StronglySorted (λ a b, (priority_key a ≤ priority_key b)%nat) recs ∧
    (∀ k, filter (λ x, priority_key x = k) recs =
          filter (λ x, priority_key x = k) generated) ∧
    (∀ i j a b, (i < j)%nat → recs !! i = Some a → recs !! j = Some b →
                priority a = "medium" → priority b ≠ "high") ∧
    (∀ p, priority_rank "high" = 0%nat ∧ priority_rank "medium" = 1%nat ∧
          priority_rank "low" = 2%nat ∧
          (p ∉ ["high"; "medium"; "low"] → priority_rank p = 3%nat)).
Proof.
  intros results recommend recs.
  exact (recommendations_sorted_by_priority results recs eq_refl).
Defined.

(** ** C8: what each finding emits *)

Lemma recommend_vuln_emitted (vuln : pydict) (acc : list recommendation) :
  recommend_vuln (PDict vuln) acc = Ok (acc ++ emitted vuln).
Proof.
  unfold recommend_vuln, emitted, severity, in_strings, dict_get.
  destruct (vuln !! "severity") as [[|b|x|s|l|d]|]; simpl;
    try by rewrite app_nil_r.
  rewrite (bool_decide_ext (s ∈ ["critical"; "high"])
             (Some s = Some "critical" ∨ Some s = Some "high")).
  - case_bool_decide; simpl; [done|by rewrite app_nil_r].
  - rewrite !elem_of_cons, elem_of_nil.
    split; [intros [->|[->|[]]]; auto | intros [[= ->]|[= ->]]; auto].
Qed.

Lemma for_each_emitted (vulns : list pydict) (acc : list recommendation) :
  for_each recommend_vuln (PDict <$> vulns) acc = Ok (acc ++ flat_map emitted vulns).
Proof.
  revert acc. induction vulns as [|vuln vulns IH]; intros acc.
  - simpl. by rewrite app_nil_r.
  - rewrite fmap_cons. cbn [for_each flat_map].
    rewrite recommend_vuln_emitted. simpl. rewrite IH. by rewrite <- app_assoc.
Qed.

Lemma emitted_high (vulns : list pydict) :
  Forall (λ r, priority r = "high") (flat_map emitted vulns).
Proof.
  induction vulns as [|vuln vulns IH]; simpl; [constructor|].
  apply Forall_app. split; [|done].
  unfold emitted. case_bool_decide; repeat constructor.
Qed.

Lemma all_high_sorted (l : list recommendation) :
  Forall (λ r, priority r = "high") l → StronglySorted (key_le priority_key) l.
Proof.
  induction 1 as [|r l Hr Hl IH]; constructor; [done|].
  eapply Forall_impl; [exact Hl|].
  intros r' Hr'. unfold key_le, priority_key. by rewrite Hr, Hr'.
Qed.

(** C8.  When the vulnerability scanner's entry lists findings (its
    "vulnerabilities", read with the default [[]]), the builder returns, in the order of the findings, exactly one
    recommendation for each finding of severity critical or high
    (priority high, module vulnerability_scanner, the finding's name or
    "Unknown vulnerability", its remediation or "Patch system
    immediately") and none for a finding of any other severity. *)
Theorem findings_to_recommendations (results : pyresults) (entry : pydict)
    (vulns : list pydict) :
  results !! "vulnerability_scanner" = Some entry →
  dict_get entry "vulnerabilities" (PList []) = PList (PDict <$> vulns) →
  _generate_recommendations results = Ok (flat_map emitted vulns).
Proof.
  intros Hentry Hvulns.
  unfold _generate_recommendations, collect_recommendations.
  rewrite Hentry, Hvulns. simpl. rewrite for_each_emitted. simpl.
  f_equal. apply sorted_id, all_high_sorted, emitted_high.
Qed.

Lemma findings_to_recommendations_witness :
  _generate_recommendations
    {[ "vulnerability_scanner" :=
         dict_of [("status", PStr "completed");
                  ("vulnerabilities", PList
                     [PDict (dict_of [("severity", PStr "high")]);
                      PDict (dict_of [("severity", PStr "medium");
                                      ("name", PStr "Outdated SSL Certificate")])])] ]}
  = Ok [{| priority := "high";
           module := "vulnerability_scanner";
           finding := PStr "Unknown vulnerability";
           action := PStr "Patch system immediately" |}].
Proof.
  apply (findings_to_recommendations _
           (dict_of [("status", PStr "completed");
                     ("vulnerabilities", PList
                        [PDict (dict_of [("severity", PStr "high")]);
                         PDict (dict_of [("severity", PStr "medium");
                                         ("name", PStr "Outdated SSL Certificate")])])])
           [dict_of [("severity", PStr "high")];
            dict_of [("severity", PStr "medium");
                     ("name", PStr "Outdated SSL Certificate")]]);
    reflexivity.
Defined.

(** ** Further properties of the coordinator *)

Lemma run_module_lookup (results : pyresults) (item : string * assessment_module)
    (name : string) :
  run_module results item !! name =
  if decide (item.1 = name) then Some (stored_entry item.2) else results !! name.
Proof.
  unfold run_module, stored_entry.
  destruct (run item.2); rewrite lookup_insert; by case_decide.
Qed.

Lemma run_modules_from_other (registry : list (string * assessment_module))
    (results : pyresults) (name : string) :
  name ∉ registry.*1 →
  fold_left run_module registry results !! name = results !! name.
Proof.
  revert results. induction registry as [|item registry IH]; intros results Hname.
  - done.
  - rewrite fmap_cons, not_elem_of_cons in Hname. destruct Hname as [Hne Hname].
    simpl. rewrite IH by done. rewrite run_module_lookup.
    by rewrite decide_False.
Qed.

Lemma run_modules_from (registry : list (string * assessment_module))
    (results : pyresults) (name : string) (m : assessment_module) :
  NoDup registry.*1 → (name, m) ∈ registry →
  fold_left run_module registry results !! name = Some (stored_entry m).
Proof.
  revert results. induction registry as [|item registry IH]; intros results Hdup Hin.
  - by apply elem_of_nil in Hin.
  - rewrite fmap_cons in Hdup. apply NoDup_cons in Hdup as [Hfresh Hdup].
    apply elem_of_cons in Hin as [<-|Hin]; simpl.
    + rewrite run_modules_from_other by done.
      rewrite run_module_lookup. by rewrite decide_True.
    + by apply IH.
Qed.

Lemma fail_item_names (fails : string → option string)
    (registry : list (string * assessment_module)) :
  (fail_item fails <$> registry).*1 = registry.*1.
Proof.
  rewrite <- list_fmap_compose. apply list_fmap_ext.
  intros i item _. unfold fail_item. simpl. by destruct (fails item.1).
Qed.

Lemma stock_names_distinct (cfg : configuration) (scan_time : string) :
  NoDup (modules (SentinelAegis_init cfg scan_time)).*1.
Proof. apply (bool_decide_unpack (NoDup _)). vm_compute. exact I. Qed.

(** Whichever of the seven stock modules raise an [Exception], the
    [run_assessment] of the sections above completes with a report
    (provided the report can be written), and the slot of each module
    that raised holds its error entry. *)
Lemma run_assessment_with_failures (w : world) (cfg : configuration)
    (scan_time : string) (fails : string → option string) :
  (∀ path r, ∃ file, write_report w path r = Ok file) →
  ∃ rep,
    run_assessment w (with_failures fails (SentinelAegis_init cfg scan_time)) = Ok rep ∧
    (∀ name text, name ∈ (modules (SentinelAegis_init cfg scan_time)).*1 →
       fails name = Some text →
       module_results rep !! name =
       Some (dict_of [("status", PStr "error"); ("message", PStr text)])).
Proof.
  intros Hwrite. unfold run_assessment, _save_report.
  set (self := with_failures fails (SentinelAegis_init cfg scan_time)).
  assert (∃ rep, _generate_report (config self) (now w) (run_modules (modules self)) = Ok rep
                 ∧ module_results rep = run_modules (modules self))
    as (rep & -> & Hres).
  { unfold self, with_failures, fail_item, _generate_report. simpl.
    destruct (fails "vulnerability_scanner"), (fails "policy_analyzer"),
      (fails "attack_simulator"), (fails "compliance_auditor"),
      (fails "threat_monitor"), (fails "incident_response"),
      (fails "training_platform"); eexists; (split; reflexivity). }
  simpl. destruct (Hwrite (cfg_report_path cfg) rep) as [file ->].
  simpl. eexists. split; [reflexivity|].
  intros name text Hname Hfail. rewrite Hres.
  unfold run_modules.
  apply (run_modules_from _ ∅ name (failing_module text)).
  - change (modules self)
      with (fail_item fails <$> modules (SentinelAegis_init cfg scan_time)).
    rewrite fail_item_names. apply stock_names_distinct.
  - change (modules self)
      with (fail_item fails <$> modules (SentinelAegis_init cfg scan_time)).
    change (name ∈ (modules (SentinelAegis_init cfg scan_time)).*1) in Hname.
    apply list_elem_of_fmap in Hname as ([name' m] & -> & Hin).
    apply list_elem_of_fmap. exists (name', m). split; [|done].
    unfold fail_item. simpl in *. by rewrite Hfail.
Qed.

(** [sorted] is a stable sort: it permutes its argument, puts it in the
    order of the key and keeps the order of the elements of equal key. *)
Theorem sorted_is_stable_sort {A : Type} (key : A → nat) (l : list A) :
  sorted key l ≡ₚ l ∧
  StronglySorted (λ x y, (key x ≤ key y)%nat) (sorted key l) ∧
  (∀ k, filter (λ x, key x = k) (sorted key l) = filter (λ x, key x = k) l).
Proof.
  split_and!.
  - apply sorted_perm.
  - apply sorted_sorted.
  - intros k. apply sorted_stable.
Qed.

Example sorted_by_priority_example :
  sorted priority_rank ["low"; "high"; "urgent"; "medium"; "high"]
  = ["high"; "high"; "medium"; "low"; "urgent"].
Proof. reflexivity. Qed.

(** * Further properties of the code *)

(** ** The aggregator: bounds *)

Lemma present_score_cases (results : pyresults) (name : string) (weight : Qc) :
  present_score results (name, weight) = [] ∨
  ∃ v x, score_field results name = Some v ∧ as_number v = Some x ∧
         present_score results (name, weight) = [x * weight].
Proof.
  unfold present_score. simpl.
  destruct (score_field results name) as [v|]; simpl; [|by left].
  destruct (as_number v) as [x|] eqn:Hv; [right; eauto|by left].
Qed.

(** When every risk score a designated module carries lies between 0
    and 100, so does the aggregate, whichever of the four modules are
    present. *)
Theorem aggregate_within_scale (results : pyresults) :
  (∀ name v, name ∈ designated_modules → score_field results name = Some v →
     ∃ x, as_number v = Some x ∧ #0 ≤ x ∧ x ≤ #100) →
  ∃ a, _calculate_risk_score results = Ok a ∧ #0 ≤ a ∧ a ≤ #100.
Proof.
  intros Hscale.
  rewrite calculate_risk_score_unfold.
  rewrite !contribution_numeric.
  2-5: intros v Hv; edestruct Hscale as (x & -> & _); [|exact Hv|by eexists];
       designated.
  pose proof (λ v, Hscale "vulnerability_scanner" v ltac:(designated)) as S1.
  pose proof (λ v, Hscale "policy_analyzer" v ltac:(designated)) as S2.
  pose proof (λ v, Hscale "attack_simulator" v ltac:(designated)) as S3.
  pose proof (λ v, Hscale "compliance_auditor" v ltac:(designated)) as S4.
  clear Hscale.
  simpl. eexists. split; [reflexivity|].
  destruct (present_score_cases results "vulnerability_scanner" #0.3)
    as [->|(v1 & x1 & F1 & N1 & ->)];
  destruct (present_score_cases results "policy_analyzer" #0.2)
    as [->|(v2 & x2 & F2 & N2 & ->)];
  destruct (present_score_cases results "attack_simulator" #0.25)
    as [->|(v3 & x3 & F3 & N3 & ->)];
  destruct (present_score_cases results "compliance_auditor" #0.25)
    as [->|(v4 & x4 & F4 & N4 & ->)];
  repeat match goal with
  | S : ∀ v, score_field results ?n = Some v → _,
    F : score_field results ?n = Some ?v |- _ =>
      destruct (S v F) as (? & ? & ? & ?); clear S
  end;
  simplify_eq; simpl; unfold py_sum; simpl; split; qc_linear.
Qed.

Lemma aggregate_within_scale_witness :
  ∃ a, _calculate_risk_score
         {[ "compliance_auditor" := dict_of [("risk_score", PNum #100)] ]} = Ok a ∧
       #0 ≤ a ∧ a ≤ #100.
Proof.
  apply aggregate_within_scale. intros name v Hname Hv.
  designated_inv Hname; vm_compute in Hv; try discriminate.
  injection Hv as <-. eexists. split; [reflexivity|]. split; by vm_compute.
Defined.

Lemma risk_level_below_50 (a : Qc) :
  a < #50 → _risk_level a = "LOW" ∨ _risk_level a = "MEDIUM".
Proof.
  intros Ha. unfold _risk_level.
  repeat case_bool_decide; auto; exfalso; qc_order; lra.
Qed.

(** A designated module that is the only entry of the results, as in
    restricted mode, is weighted and not scaled up: with a score of at
    most 100 the aggregate is at most 30 and the level is LOW or MEDIUM,
    never HIGH or CRITICAL. *)
Theorem lone_designated_module_stays_below_high (name : string) (entry : pydict)
    (v : pyval) (s : Qc) :
  name ∈ designated_modules →
  entry !! "risk_score" = Some v → as_number v = Some s → s ≤ #100 →
  ∃ a, _calculate_risk_score {[ name := entry ]} = Ok a ∧ a ≤ #30 ∧
       (_risk_level a = "LOW" ∨ _risk_level a = "MEDIUM").
Proof.
  intros Hname Hv Hs Hle.
  assert (∀ other w, contribution ({[ name := entry ]} : pyresults) other w =
            if decide (other = name) then Ok [s * w] else Ok []) as Hc.
  { intros other w. unfold contribution, score_field, py_mul.
    case_decide as Ho.
    - subst other. rewrite lookup_singleton_eq. simpl. by rewrite Hv, Hs.
    - by rewrite lookup_singleton_ne. }
  rewrite calculate_risk_score_unfold, !Hc.
  designated_inv Hname; simpl;
    eexists; (split; [reflexivity|]);
    (split; [unfold py_sum; simpl; qc_linear|]);
    apply risk_level_below_50; unfold py_sum; simpl; qc_linear.
Qed.

Lemma lone_designated_module_stays_below_high_witness :
  ∃ a, _calculate_risk_score
         {[ "vulnerability_scanner" :=
              dict_of [("status", PStr "completed"); ("risk_score", PNum #100)] ]}
       = Ok a ∧ a ≤ #30 ∧
       (_risk_level a = "LOW" ∨ _risk_level a = "MEDIUM").
Proof.
  apply (lone_designated_module_stays_below_high "vulnerability_scanner"
           (dict_of [("status", PStr "completed"); ("risk_score", PNum #100)])
           (PNum #100) #100).
  - designated.
  - reflexivity.
  - reflexivity.
  - by vm_compute.
Defined.

(** ** The classifier is monotone *)

(** A higher score never gets a lower level. *)
Theorem risk_level_monotone (s t : Qc) :
  s ≤ t → (level_rank (_risk_level s) ≤ level_rank (_risk_level t))%nat.
Proof.
  intros Hst. unfold _risk_level.
  repeat case_bool_decide; try (vm_compute; lia); exfalso; qc_order; lra.
Qed.

Lemma risk_level_monotone_witness :
  (level_rank (_risk_level #49.5) ≤ level_rank (_risk_level #50))%nat.
Proof.
  apply risk_level_monotone. by vm_compute.
Defined.

(** ** The module loop *)

Lemma run_modules_from_dom (registry : list (string * assessment_module))
    (results : pyresults) :
  dom (fold_left run_module registry results) =
  list_to_set registry.*1 ∪ dom results.
Proof.
  revert results. induction registry as [|item registry IH]; intros results; simpl.
  - by rewrite (left_id_L ∅ (∪)).
  - rewrite IH. unfold run_module.
    destruct (run item.2); rewrite dom_insert_L, (assoc_L (∪));
      by rewrite (comm_L (∪) (list_to_set _)).
Qed.

(** The results of a full assessment have one slot for each registered
    name, whether the module returned or raised, and no other slot. *)
Theorem one_slot_per_module (registry : list (string * assessment_module)) :
  dom (run_modules registry) = list_to_set registry.*1.
Proof.
  unfold run_modules. rewrite run_modules_from_dom, dom_empty_L.
  by rewrite (right_id_L ∅ (∪)).
Qed.

(** With distinct names, the order in which the modules are registered
    and run does not change the results. *)
Theorem module_order_is_irrelevant
    (registry1 registry2 : list (string * assessment_module)) :
  NoDup registry1.*1 → registry1 ≡ₚ registry2 →
  run_modules registry1 = run_modules registry2.
Proof.
  intros Hdup Hperm.
  assert (NoDup registry2.*1) as Hdup2 by by rewrite <- Hperm.
  apply map_eq. intros name. unfold run_modules.
  destruct (decide (name ∈ registry1.*1)) as [Hin|Hout].
  - apply list_elem_of_fmap in Hin as ([name' m] & -> & Hin). simpl.
    rewrite (run_modules_from registry1 ∅ name' m Hdup Hin).
    rewrite (run_modules_from registry2 ∅ name' m Hdup2); [done|].
    by rewrite <- Hperm.
  - rewrite !run_modules_from_other; [done| |done].
    by rewrite <- Hperm.
Qed.

Lemma module_order_is_irrelevant_witness :
  run_modules [("policy_analyzer", PolicyAnalyzer);
               ("threat_monitor", failing_module "connection refused")] =
  run_modules [("threat_monitor", failing_module "connection refused");
               ("policy_analyzer", PolicyAnalyzer)].
Proof.
  apply module_order_is_irrelevant.
  - simpl. apply NoDup_cons. split; [|apply NoDup_singleton].
    by rewrite list_elem_of_singleton.
  - apply Permutation_swap.
Defined.

Lemma run_modules_without (name other : string)
    (registry : list (string * assessment_module)) (r1 r2 : pyresults) :
  other ≠ name → r1 !! other = r2 !! other →
  fold_left run_module (without_module name registry) r1 !! other =
  fold_left run_module registry r2 !! other.
Proof.
  intros Hne. revert r1 r2.
  induction registry as [|item registry IH]; intros r1 r2 Hr; [done|].
  unfold without_module in *. rewrite filter_cons. simpl.
  case_decide as Hitem; simpl.
  - apply IH. rewrite !run_module_lookup. by case_decide.
  - apply IH. rewrite run_module_lookup. rewrite decide_False; [done|].
    congruence.
Qed.

Lemma without_module_names (name : string)
    (registry : list (string * assessment_module)) :
  name ∉ (without_module name registry).*1.
Proof.
  unfold without_module. intros Hin.
  apply list_elem_of_fmap in Hin as (item & -> & Hin).
  apply list_elem_of_filter in Hin as [Hne _]. done.
Qed.

Lemma collect_recommendations_findings (results : pyresults) :
  collect_recommendations results =
  (vulns ← py_iter (findings results); for_each recommend_vuln vulns []).
Proof.
  unfold collect_recommendations, findings.
  by destruct (results !! "vulnerability_scanner").
Qed.

(** A module that raised is scored as if it had not been registered:
    the aggregate and the recommendations are those of the assessment
    without it. *)
Theorem failed_module_counts_as_absent
    (registry : list (string * assessment_module)) (name : string)
    (m : assessment_module) (e : exn) :
  NoDup registry.*1 → (name, m) ∈ registry → run m = Raise e →
  _calculate_risk_score (run_modules registry) =
    _calculate_risk_score (run_modules (without_module name registry)) ∧
  _generate_recommendations (run_modules registry) =
    _generate_recommendations (run_modules (without_module name registry)).
Proof.
  intros Hdup Hin Hrun.
  assert (run_modules registry !! name = Some (error_entry e)) as Hname.
  { unfold run_modules. rewrite (run_modules_from registry ∅ name m Hdup Hin).
    unfold stored_entry. by rewrite Hrun. }
  assert (run_modules (without_module name registry) !! name = None) as Hgone.
  { unfold run_modules. rewrite run_modules_from_other; [done|].
    apply without_module_names. }
  assert (∀ other, other ≠ name →
            run_modules (without_module name registry) !! other =
            run_modules registry !! other) as Hother.
  { intros other Hne. unfold run_modules. by apply run_modules_without. }
  split.
  - apply calculate_risk_score_fields. intros other _. unfold score_field.
    destruct (decide (other = name)) as [->|Hne].
    + by rewrite Hname, Hgone.
    + by rewrite Hother.
  - unfold _generate_recommendations.
    rewrite !collect_recommendations_findings. unfold findings.
    destruct (decide ("vulnerability_scanner" = name)) as [<-|Hne].
    + by rewrite Hname, Hgone.
    + by rewrite Hother.
Qed.

Lemma failed_module_counts_as_absent_witness :
  let registry :=
    [("vulnerability_scanner", failing_module "scanner offline");
     ("policy_analyzer", PolicyAnalyzer)] in
  _calculate_risk_score (run_modules registry) =
    _calculate_risk_score (run_modules (without_module "vulnerability_scanner" registry)) ∧
  _generate_recommendations (run_modules registry) =
    _generate_recommendations (run_modules (without_module "vulnerability_scanner" registry)).
Proof.
  intros registry.
  apply (failed_module_counts_as_absent registry "vulnerability_scanner"
           (failing_module "scanner offline") (Raised "scanner offline")).
  - simpl. apply NoDup_cons. split; [|apply NoDup_singleton].
    by rewrite list_elem_of_singleton.
  - apply list_elem_of_here.
  - reflexivity.
Defined.

(** When every designated module that is registered raises, the
    aggregate is the default 50, as if none of them had been run. *)
Theorem all_designated_failed_gives_default
    (registry : list (string * assessment_module)) :
  NoDup registry.*1 →
  (∀ name m, name ∈ designated_modules → (name, m) ∈ registry →
             ∃ e, run m = Raise e) →
  _calculate_risk_score (run_modules registry) = Ok #50.
Proof.
  intros Hdup Hfail.
  rewrite calculate_risk_score_unfold.
  assert (∀ name w, name ∈ designated_modules →
            contribution (run_modules registry) name w = Ok []) as Hc.
  { intros name w Hname. unfold contribution, score_field.
    destruct (decide (name ∈ registry.*1)) as [Hin|Hout].
    - apply list_elem_of_fmap in Hin as ([name' m] & -> & Hin). simpl in *.
      unfold run_modules. rewrite (run_modules_from registry ∅ name' m Hdup Hin).
      destruct (Hfail name' m Hname Hin) as [e He].
      unfold stored_entry. by rewrite He.
    - unfold run_modules. by rewrite run_modules_from_other. }
  rewrite !Hc by designated.
  reflexivity.
Qed.

Lemma all_designated_failed_gives_default_witness :
  _calculate_risk_score
    (run_modules [("vulnerability_scanner", failing_module "scanner offline");
                  ("threat_monitor", ThreatMonitor)]) = Ok #50.
Proof.
  apply all_designated_failed_gives_default.
  - simpl. apply NoDup_cons. split; [|apply NoDup_singleton].
    by rewrite list_elem_of_singleton.
  - intros name m Hname Hin.
    apply elem_of_cons in Hin as [[= -> ->]|Hin]; [by eexists|].
    apply list_elem_of_singleton in Hin as [= -> ->].
    by destruct threat_monitor_not_designated.
Defined.

(** ** The recommendation builder: what it reads, how it fails *)

Lemma is_dict_dec (v : pyval) : is_dict v ∨ ¬ is_dict v.
Proof.
  destruct v; try (right; intros [d' [=]]; done). left. by eexists.
Qed.

Lemma dicts_of (items : list pyval) :
  Forall is_dict items → ∃ vulns, items = PDict <$> vulns.
Proof.
  induction 1 as [|item items [d ->] _ [vulns ->]].
  - by exists [].
  - by exists (d :: vulns).
Qed.

Lemma all_dicts_or_not (items : list pyval) :
  Forall is_dict items ∨ Exists (λ item, ¬ is_dict item) items.
Proof.
  induction items as [|item items [IH|IH]].
  - left. constructor.
  - destruct (is_dict_dec item); [left|right]; by constructor.
  - right. by constructor.
Qed.

Lemma for_each_non_dict (items : list pyval) (acc : list recommendation) :
  Exists (λ item, ¬ is_dict item) items →
  for_each recommend_vuln items acc = Raise AttributeError.
Proof.
  intros Hbad. revert acc.
  induction Hbad as [item items Hitem|item items Hbad IH]; intros acc; simpl.
  - destruct item; try done. destruct Hitem. by eexists.
  - destruct item; try done. rewrite recommend_vuln_emitted. simpl. apply IH.
Qed.

Lemma emitted_shape (vulns : list pydict) :
  Forall (λ r, priority r = "high" ∧ module r = "vulnerability_scanner")
         (flat_map emitted vulns) ∧
  (length (flat_map emitted vulns) ≤ length vulns)%nat.
Proof.
  induction vulns as [|vuln vulns [IH1 IH2]]; simpl; [split; [constructor|lia]|].
  unfold emitted at 1 3. case_bool_decide; simpl; split;
    try (constructor; [done|]); try done; lia.
Qed.

(** The builder reads nothing but the vulnerability scanner's
    "vulnerabilities": results that agree there give the same
    recommendations, whatever the other modules report, and a missing
    entry, a missing list and an empty list all give none. *)
Theorem recommendations_read_findings_only :
  (∀ r1 r2 : pyresults, findings r1 = findings r2 →
     _generate_recommendations r1 = _generate_recommendations r2) ∧
  (∀ results : pyresults, findings results = PList [] →
     _generate_recommendations results = Ok []).
Proof.
  split.
  - intros r1 r2 H. unfold _generate_recommendations.
    by rewrite !collect_recommendations_findings, H.
  - intros results H. unfold _generate_recommendations.
    by rewrite collect_recommendations_findings, H.
Qed.

(** A "vulnerabilities" value that cannot be iterated makes the
    builder raise [TypeError]; one finding that is no dict makes it
    raise [AttributeError], whatever the other findings are, and no
    partial list is returned; when every finding is a dict it returns. *)
Theorem recommendations_failures (results : pyresults) :
  (py_iter (findings results) = Raise TypeError →
     _generate_recommendations results = Raise TypeError) ∧
  (∀ items, py_iter (findings results) = Ok items →
     (Exists (λ item, ¬ is_dict item) items →
        _generate_recommendations results = Raise AttributeError) ∧
     (Forall is_dict items →
        ∃ recs, _generate_recommendations results = Ok recs)).
Proof.
  unfold _generate_recommendations. rewrite collect_recommendations_findings.
  split.
  - by intros ->.
  - intros items ->. simpl. split.
    + intros Hbad. by rewrite for_each_non_dict.
    + intros Hdicts. apply dicts_of in Hdicts as [vulns ->].
      rewrite for_each_emitted. simpl. by eexists.
Qed.

Example recommendations_fail_on_a_string_finding :
  _generate_recommendations
    {[ "vulnerability_scanner" :=
         dict_of [("vulnerabilities", PList
                     [PDict (dict_of [("severity", PStr "high")]);
                      PStr "CVE-2023-1234"])] ]}
  = Raise AttributeError.
Proof. reflexivity. Qed.

(** Every recommendation the builder returns has priority "high" and
    module "vulnerability_scanner", and there are at most as many as
    there are findings. *)
Theorem recommendations_shape (results : pyresults) (recs : list recommendation) :
  _generate_recommendations results = Ok recs →
  Forall (λ r, priority r = "high" ∧ module r = "vulnerability_scanner") recs ∧
  ∃ items, py_iter (findings results) = Ok items ∧
           (length recs ≤ length items)%nat.
Proof.
  unfold _generate_recommendations. rewrite collect_recommendations_findings.
  destruct (py_iter (findings results)) as [items|]; [|done]. simpl.
  destruct (all_dicts_or_not items) as [Hdicts|Hbad].
  - apply dicts_of in Hdicts as [vulns ->].
    rewrite for_each_emitted. simpl. intros [= <-].
    destruct (emitted_shape vulns) as [Hshape Hlen]. split.
    + by rewrite (sorted_perm priority_key).
    + eexists. split; [done|].
      rewrite (sorted_perm priority_key), length_fmap. done.
  - by rewrite for_each_non_dict.
Qed.

Lemma recommendations_shape_witness :
  let results :=
    run_modules (modules (SentinelAegis_init (Configuration "ACME" "./reports") "t0")) in
  let recs :=
    [{| priority := "high";
        module := "vulnerability_scanner";
        finding := PStr "SQL Injection Vulnerability";
        action := PStr "Update database middleware" |}] in
  Forall (λ r, priority r = "high" ∧ module r = "vulnerability_scanner") recs ∧
  ∃ items, py_iter (findings results) = Ok items ∧
           (length recs ≤ length items)%nat.
Proof.
  exact (recommendations_shape
           (run_modules (modules (SentinelAegis_init (Configuration "ACME" "./reports") "t0")))
           _ eq_refl).
Defined.

(** ** [main]: which mode runs, and what is written *)

(** An empty or unregistered module name does not fail: [main] runs the
    full assessment, as if no module had been named. *)
Theorem unknown_module_runs_everything (w : world) (sentinel : SentinelAegis)
    (name path : string) :
  name = "" ∨ registry_lookup name (modules sentinel) = None →
  main w sentinel {| arg_module := Some name; arg_report := path |} =
  main w sentinel {| arg_module := None; arg_report := path |}.
Proof.
  intros Hname. unfold main. simpl.
  destruct (decide (name = "")) as [->|Hne]; [done|].
  destruct Hname as [->|Hlookup]; [done|].
  destruct (decide (path = "")); simpl; by rewrite Hlookup.
Qed.

Lemma unknown_module_runs_everything_witness :
  let w := {| now := "t1"; write_report := λ _ _, Ok "security_assessment.json" |} in
  let sentinel := SentinelAegis_init (Configuration "ACME" "./reports") "t0" in
  main w sentinel {| arg_module := Some "threat_monitr"; arg_report := "./reports" |} =
  main w sentinel {| arg_module := None; arg_report := "./reports" |}.
Proof.
  intros w sentinel. apply unknown_module_runs_everything.
  right. reflexivity.
Defined.

(** Restricted mode writes no report file: its outcome does not depend
    on the file system, and the report it builds holds the one module's
    result and nothing else. *)
Theorem restricted_mode_writes_nothing (w w' : world) (sentinel : SentinelAegis)
    (name path : string) (m : assessment_module) :
  name ≠ "" → registry_lookup name (modules sentinel) = Some m → now w = now w' →
  main w sentinel {| arg_module := Some name; arg_report := path |} =
  main w' sentinel {| arg_module := Some name; arg_report := path |} ∧
  (∀ rep, main w sentinel {| arg_module := Some name; arg_report := path |} = Ok rep →
     ∃ r, run m = Ok r ∧ module_results rep = {[ name := r ]}).
Proof.
  intros Hne Hlookup Hnow. unfold main. simpl.
  rewrite decide_False by done.
  destruct (decide (path = "")); simpl; rewrite Hlookup, Hnow; (split; [done|]);
    intros rep; destruct (run m) as [r|]; simpl; try done;
    unfold _generate_report;
    destruct (_calculate_risk_score _); simpl; try done;
    destruct (_generate_recommendations _); simpl; try done;
    intros [= <-]; by eexists.
Qed.

Lemma restricted_mode_writes_nothing_witness :
  let w := {| now := "t1"; write_report := λ _ _, Ok "security_assessment.json" |} in
  let w' := {| now := "t1"; write_report := λ _ _, Raise (Raised "disk full") |} in
  let sentinel := SentinelAegis_init (Configuration "ACME" "./reports") "t0" in
  main w sentinel {| arg_module := Some "policy_analyzer"; arg_report := "./out" |} =
  main w' sentinel {| arg_module := Some "policy_analyzer"; arg_report := "./out" |}.
Proof.
  intros w w' sentinel.
  apply (restricted_mode_writes_nothing w w' sentinel "policy_analyzer" "./out"
           PolicyAnalyzer); done.
Defined.

(** A full assessment returns no report when the report file cannot be
    written: the failure of [_save_report] is not caught. *)
Theorem full_mode_needs_the_write (w : world) (sentinel : SentinelAegis)
    (path : string) (e : exn) :
  (∀ dir r, write_report w dir r = Raise e) →
  ∀ rep, main w sentinel {| arg_module := None; arg_report := path |} ≠ Ok rep.
Proof.
  intros Hwrite rep. unfold main, run_assessment, _save_report. simpl.
  destruct (decide (path = "")); simpl;
    destruct (_generate_report _ _ _); simpl; try done; by rewrite Hwrite.
Qed.

Lemma full_mode_needs_the_write_witness :
  let w := {| now := "t1"; write_report := λ _ _, Raise (Raised "disk full") |} in
  ¬ ∃ rep,
      main w (SentinelAegis_init (Configuration "ACME" "./reports") "t0")
           {| arg_module := None; arg_report := "./reports" |} = Ok rep.
Proof.
  intros w [rep Hrep].
  exact (full_mode_needs_the_write w _ "./reports" (Raised "disk full")
           (λ _ _, eq_refl) rep Hrep).
Defined.

(** ** [_load_config] *)

(** A configuration file that holds a JSON object is merged over the
    defaults key by key: a key of the file takes the file's value, any
    other key keeps its default. *)
Theorem load_config_merges (read_json : string → option (outcome pyval))
    (path : string) (user_config : pydict) (key : string) :
  path ≠ "" → read_json path = Some (Ok (PDict user_config)) →
  _load_config read_json (Some path) !! key =
  match user_config !! key with
  | Some v => Some v
  | None => default_config !! key
  end.
Proof.
  intros Hpath Hread. unfold _load_config.
  rewrite decide_False by done. rewrite Hread, lookup_union.
  destruct (user_config !! key), (default_config !! key); done.
Qed.

Lemma load_config_merges_witness :
  let read_json := λ _ : string,
    Some (Ok (PDict (dict_of [("organization", PStr "ACME");
                              ("log_level", PStr "DEBUG")]))) in
  _load_config read_json (Some "config.json") !! "organization" = Some (PStr "ACME") ∧
  _load_config read_json (Some "config.json") !! "report_path" = Some (PStr "./reports").
Proof.
  intros read_json. split.
  - by rewrite (load_config_merges read_json "config.json"
                  (dict_of [("organization", PStr "ACME"); ("log_level", PStr "DEBUG")])
                  "organization").
  - by rewrite (load_config_merges read_json "config.json"
                  (dict_of [("organization", PStr "ACME"); ("log_level", PStr "DEBUG")])
                  "report_path").
Defined.

(** In every other case the defaults are used as they are: no path, an
    empty path, a path that does not exist, a file that cannot be read
    or parsed, and a file whose JSON value is not an object. *)
Theorem load_config_falls_back (read_json : string → option (outcome pyval))
    (config_path : option string) :
  (∀ path user_config, config_path = Some path → path ≠ "" →
     read_json path ≠ Some (Ok (PDict user_config))) →
  _load_config read_json config_path = default_config.
Proof.
  intros Hno. unfold _load_config.
  destruct config_path as [path|]; [|done].
  case_decide as Hpath; [done|].
  destruct (read_json path) as [[v|e]|] eqn:Hread; try done.
  destruct v; try done. by destruct (Hno path d eq_refl Hpath).
Qed.

Lemma load_config_falls_back_witness :
  _load_config (λ _, Some (Ok (PList [PStr "organization"]))) (Some "config.json")
  = default_config.
Proof.
  apply load_config_falls_back. intros path user_config _ _. discriminate.
Defined.

(** Whatever the file holds, the loaded configuration has every key of
    the defaults, among them the three the coordinator reads with
    [self.config[...]]. *)
Theorem load_config_keeps_default_keys (read_json : string → option (outcome pyval))
    (config_path : option string) :
  dom default_config ⊆ dom (_load_config read_json config_path) ∧
  is_Some (_load_config read_json config_path !! "organization") ∧
  is_Some (_load_config read_json config_path !! "report_path") ∧
  is_Some (_load_config read_json config_path !! "log_level").
Proof.
  assert (dom default_config ⊆ dom (_load_config read_json config_path)) as Hdom.
  { unfold _load_config.
    destruct config_path as [path|]; [|done].
    case_decide; [done|].
    destruct (read_json path) as [[v|e]|]; try done.
    destruct v; try done. rewrite dom_union. apply union_subseteq_r. }
  split; [done|].
  split_and!; apply elem_of_dom, Hdom, elem_of_dom; by eexists.
Qed.

(** ** The name of the report file *)

Lemma append_inj_r (p s1 s2 : string) : p +:+ s1 = p +:+ s2 → s1 = s2.
Proof.
  induction p as [|c p IH]; simpl; [done|]. intros [= H]. by apply IH.
Qed.

Lemma length_append (s1 s2 : string) :
  String.length (s1 +:+ s2) = (String.length s1 + String.length s2)%nat.
Proof. induction s1 as [|c s1 IH]; simpl; [done|]. by rewrite IH. Qed.

Lemma append_inj_l (s1 s2 suffix : string) :
  s1 +:+ suffix = s2 +:+ suffix → s1 = s2.
Proof.
  intros H. apply (f_equal String.length) in H as Hlen.
  rewrite !length_append in Hlen.
  assert (String.length s1 = String.length s2) as Hl by lia. clear Hlen.
  revert s2 H Hl. induction s1 as [|c s1 IH]; intros [|c2 s2]; simpl; try done.
  intros [= -> H] [= Hl]. f_equal. by apply IH.
Qed.

(** Two reports saved under the same directory get the same file name
    exactly when their timestamps, which have a resolution of one
    second, are the same: the later one then replaces the earlier. *)
Theorem report_filename_collides_only_on_timestamp (report_path t1 t2 : string) :
  report_filename report_path t1 = report_filename report_path t2 ↔ t1 = t2.
Proof.
  split; [|by intros ->]. unfold report_filename. intros H.
  apply append_inj_r, append_inj_r in H. by apply append_inj_l in H.
Qed.

(** * Exceptions outside [Exception] *)

(** ** The loop on modules that raise [Exception]s only *)

Lemma interruptible_run_modules_from_catchable
    (registry : list (string * assessment_module)) (results : pyresults) :
  Interruptible.run_modules_from (prod_map id catchable <$> registry) results =
  Finished (Ok (fold_left run_module registry results)).
Proof.
  revert results. induction registry as [|[name m] registry IH]; intros results; [done|].
  rewrite fmap_cons. simpl. unfold run_module at 2. simpl.
  destruct (run m); apply IH.
Qed.

Lemma interruptible_run_modules_catchable
    (registry : list (string * assessment_module)) :
  Interruptible.run_modules (prod_map id catchable <$> registry) =
  Finished (Ok (run_modules registry)).
Proof. apply interruptible_run_modules_from_catchable. Qed.

(** On such modules [Interruptible.run_assessment] is the
    [run_assessment] of the sections above. *)
Lemma interruptible_run_assessment_catchable (w : world) (self : SentinelAegis) :
  Interruptible.run_assessment w (config self) (prod_map id catchable <$> modules self) =
  Finished (run_assessment w self).
Proof.
  unfold Interruptible.run_assessment. by rewrite interruptible_run_modules_catchable.
Qed.

Lemma never_escapes_catchable
    (registry : list (string * Interruptible.assessment_module)) :
  Forall (λ item, never_escapes item.2) registry →
  ∃ base, registry = prod_map id catchable <$> base.
Proof.
  induction 1 as [|[name [[o|b]]] registry Hm _ [base ->]].
  - by exists [].
  - by exists ((name, {| run := o |}) :: base).
  - by destruct (Hm b).
Qed.

Lemma catchable_names (registry : list (string * assessment_module)) :
  (prod_map id catchable <$> registry).*1 = registry.*1.
Proof.
  rewrite <- list_fmap_compose. apply list_fmap_ext. by intros i [name m] _.
Qed.

(** ** Failures that are recorded, and failures that end the run *)

(** Full mode, when no module raises outside [Exception]: the loop
    completes; the results have one slot per registered name; the slot
    of a module whose [run()] returned holds what it returned, and the
    slot of a module whose [run()] raised the [Exception] [e] holds the
    error entry with [str(e)]. *)
Theorem full_mode_isolates_failures
    (registry : list (string * Interruptible.assessment_module)) :
  NoDup registry.*1 →
  Forall (λ item, never_escapes item.2) registry →
  ∃ results,
    Interruptible.run_modules registry = Finished (Ok results) ∧
    dom results = list_to_set registry.*1 ∧
    ∀ name m, (name, m) ∈ registry →
      (∀ result, Interruptible.run m = Finished (Ok result) →
                 results !! name = Some result) ∧
      (∀ e, Interruptible.run m = Finished (Raise e) →
            results !! name =
            Some (dict_of [("status", PStr "error"); ("message", PStr (str e))])).
Proof.
  intros Hdup Hcatch.
  apply never_escapes_catchable in Hcatch as [base ->].
  rewrite catchable_names in Hdup.
  exists (run_modules base). split_and!.
  - apply interruptible_run_modules_catchable.
  - rewrite catchable_names. unfold run_modules.
    rewrite run_modules_from_dom, dom_empty_L. by rewrite (right_id_L ∅ (∪)).
  - intros name m Hin.
    apply list_elem_of_fmap in Hin as ([name' m'] & [= -> ->] & Hin).
    pose proof (run_modules_from base ∅ name' m' Hdup Hin) as Hslot.
    fold (run_modules base) in Hslot. unfold stored_entry in Hslot.
    simpl. split.
    + intros result [= Hrun]. by rewrite Hrun in Hslot.
    + intros e [= Hrun]. by rewrite Hrun in Hslot.
Qed.

Lemma full_mode_isolates_failures_witness :
  ∃ results,
    Interruptible.run_modules
      [("threat_monitor", catchable (failing_module "connection refused"));
       ("training_platform", catchable TrainingPlatform)] = Finished (Ok results) ∧
    results !! "threat_monitor" =
    Some (dict_of [("status", PStr "error"); ("message", PStr "connection refused")]).
Proof.
  destruct (full_mode_isolates_failures
              [("threat_monitor", catchable (failing_module "connection refused"));
               ("training_platform", catchable TrainingPlatform)])
    as (results & Hrun & _ & Hslots).
  - simpl. apply NoDup_cons. split; [|apply NoDup_singleton].
    by rewrite list_elem_of_singleton.
  - repeat constructor; intros b; discriminate.
  - exists results. split; [done|].
    exact (proj2 (Hslots "threat_monitor"
                    (catchable (failing_module "connection refused"))
                    (list_elem_of_here _ _))
                 (Raised "connection refused") eq_refl).
Defined.

(** A module that raises outside [Exception] ([KeyboardInterrupt],
    [SystemExit], [GeneratorExit]) ends the assessment: when the
    modules before it raise [Exception]s at most, what it raised leaves
    the loop and [run_assessment]; no error entry is recorded for it,
    the modules after it are not run, and no report is built or
    written. *)
Theorem interrupt_aborts_assessment (w : world) (cfg : configuration)
    (before after : list (string * Interruptible.assessment_module))
    (name : string) (m : Interruptible.assessment_module) (b : base_exception) :
  Forall (λ item, never_escapes item.2) before →
  Interruptible.run m = Escaped b →
  Interruptible.run_modules (before ++ (name, m) :: after) = Escaped b ∧
  Interruptible.run_assessment w cfg (before ++ (name, m) :: after) = Escaped b.
Proof.
  intros Hbefore Hm.
  assert (Interruptible.run_modules (before ++ (name, m) :: after) = Escaped b) as Hloop.
  { unfold Interruptible.run_modules. generalize (∅ : pyresults).
    induction Hbefore as [|[name' m'] before Hm' _ IH]; intros results; simpl.
    - by rewrite Hm.
    - destruct (Interruptible.run m') as [[result|e]|b'] eqn:Hrun; [apply IH..|].
      by destruct (Hm' b'). }
  split; [done|]. unfold Interruptible.run_assessment. by rewrite Hloop.
Qed.

Lemma interrupt_aborts_assessment_witness :
  let w := {| now := "t1"; write_report := λ _ _, Ok "security_assessment.json" |} in
  Interruptible.run_assessment w (Configuration "ACME" "./reports")
    ([("vulnerability_scanner", catchable (failing_module "scanner offline"))] ++
     ("policy_analyzer", interrupted_module KeyboardInterrupt) ::
     [("attack_simulator", catchable AttackSimulator)])
  = Escaped KeyboardInterrupt.
Proof.
  intros w.
  apply (interrupt_aborts_assessment w (Configuration "ACME" "./reports")
           [("vulnerability_scanner", catchable (failing_module "scanner offline"))]
           [("attack_simulator", catchable AttackSimulator)]
           "policy_analyzer" (interrupted_module KeyboardInterrupt) KeyboardInterrupt).
  - repeat constructor; intros b; discriminate.
  - reflexivity.
Defined.

(** Whichever of the seven stock modules raise an [Exception], the full
    assessment completes with a report (provided the report can be
    written), and the slot of each module that raised holds its error
    entry. *)
Theorem full_assessment_survives_failures (w : world) (cfg : configuration)
    (scan_time : string) (fails : string → option string) :
  (∀ path r, ∃ file, write_report w path r = Ok file) →
  ∃ rep,
    Interruptible.run_assessment w cfg
      (prod_map id catchable <$>
       modules (with_failures fails (SentinelAegis_init cfg scan_time)))
    = Finished (Ok rep) ∧
    (∀ name text, name ∈ (modules (SentinelAegis_init cfg scan_time)).*1 →
       fails name = Some text →
       module_results rep !! name =
       Some (dict_of [("status", PStr "error"); ("message", PStr text)])).
Proof.
  intros Hwrite.
  destruct (run_assessment_with_failures w cfg scan_time fails Hwrite)
    as (rep & Hrep & Hslots).
  exists rep. split; [|done].
  rewrite <- Hrep.
  apply (interruptible_run_assessment_catchable w
           (with_failures fails (SentinelAegis_init cfg scan_time))).
Qed.

Lemma full_assessment_survives_failures_witness :
  let w := {| now := "t1"; write_report := λ _ _, Ok "security_assessment.json" |} in
  let fails := λ name : string,
    if decide (name = "threat_monitor") then Some "connection refused" else None in
  ∃ rep,
    Interruptible.run_assessment w (Configuration "ACME" "./reports")
      (prod_map id catchable <$>
       modules (with_failures fails
                  (SentinelAegis_init (Configuration "ACME" "./reports") "t0")))
    = Finished (Ok rep) ∧
    module_results rep !! "threat_monitor" =
    Some (dict_of [("status", PStr "error"); ("message", PStr "connection refused")]).
Proof.
  intros w fails.
  destruct (full_assessment_survives_failures w (Configuration "ACME" "./reports")
              "t0" fails) as (rep & Hrep & Hslots).
  - intros path r. by eexists.
  - exists rep. split; [done|].
    apply Hslots; [|reflexivity].
    apply (bool_decide_unpack (_ ∈ _)). vm_compute. exact I.
Defined.

(** * Binary floating point *)

Section binary64.
Local Open Scope Q_scope.

(** ** The error of one rounding *)

Lemma round_half_even_error (q : Q) :
  Qabs (inject_Z (Binary64.round_half_even q) - q) <= 0.5.
Proof.
  unfold Binary64.round_half_even. cbv zeta.
  pose proof (Qfloor_le q) as Hlo. pose proof (Qlt_floor q) as Hhi.
  rewrite inject_Z_plus in Hhi. change (inject_Z 1) with 1 in Hhi.
  generalize dependent (Qfloor q). intros f Hlo Hhi.
  apply Qabs_Qle_condition.
  destruct (Qcompare_spec (q - inject_Z f) 0.5) as [H|H|H].
  - destruct (Z.even f); [|rewrite inject_Z_plus; change (inject_Z 1) with 1]; lra.
  - lra.
  - rewrite inject_Z_plus. change (inject_Z 1) with 1. lra.
Qed.

Lemma two_power_pos (t : Z) : 0 < 2 ^ t.
Proof. by apply Qpower_0_lt. Qed.

Lemma floor_log2_le (q : Q) :
  (Binary64.floor_log2 q <= Z.log2 (Z.abs (Qnum q)) - Z.log2 (Zpos (Qden q)))%Z.
Proof. unfold Binary64.floor_log2. destruct (Qle_bool _ _); lia. Qed.

Lemma ulp_exponent_le (q : Q) (k : Z) :
  (0 <= k)%Z → (-1074 <= k - 52)%Z → Qabs q <= 2 ^ k → (Binary64.ulp_exponent q <= k - 52)%Z.
Proof.
  intros Hk Hmin Hq. unfold Binary64.ulp_exponent.
  pose proof (floor_log2_le q) as Hfl.
  assert (Z.log2 (Z.abs (Qnum q)) <= k + Z.log2 (Zpos (Qden q)))%Z; [|lia].
  rewrite <- Z.log2_mul_pow2 by lia.
  apply Z.log2_le_mono.
  pose proof (Zpower_Qpower 2 k Hk) as Hpow. change (inject_Z 2) with 2 in Hpow.
  rewrite <- Hpow in Hq.
  destruct q as [n d]. unfold Qabs, Qle in Hq. simpl in *. lia.
Qed.

Lemma round_error (q : Q) (k : Z) :
  (0 <= k)%Z → (-1074 <= k - 52)%Z → Qabs q <= 2 ^ k →
  Qabs (Binary64.round q - q) <= 2 ^ (k - 53).
Proof.
  intros Hk Hmin Hq. unfold Binary64.round.
  pose proof (ulp_exponent_le q k Hk Hmin Hq) as Ht.
  set (t := Binary64.ulp_exponent q) in *.
  pose proof (two_power_pos t) as Hpos.
  assert (inject_Z (Binary64.round_half_even (q / 2 ^ t)) * 2 ^ t - q ==
          (inject_Z (Binary64.round_half_even (q / 2 ^ t)) - q / 2 ^ t) * 2 ^ t) as ->.
  { field. lra. }
  rewrite Qabs_Qmult, (Qabs_pos (2 ^ t)) by lra.
  assert (2 ^ (k - 53) == 0.5 * 2 ^ (k - 52)) as ->.
  { replace (k - 52)%Z with ((k - 53) + 1)%Z by lia.
    rewrite Qpower_plus by done. change (2 ^ 1) with 2. field. }
  pose proof (round_half_even_error (q / 2 ^ t)) as Herr.
  pose proof (Qpower_le_compat_l 2 t (k - 52) Ht ltac:(done)) as Hmono.
  pose proof (Qabs_nonneg (inject_Z (Binary64.round_half_even (q / 2 ^ t)) - q / 2 ^ t)).
  nra.
Qed.

Lemma round_error_128 (q : Q) : Qabs q <= 128 → Qabs (Binary64.round q - q) <= 2 ^ (-46).
Proof. intros Hq. by apply (round_error q 7). Qed.

Lemma rounded_128 (q : Q) : Qabs q <= 128 → Binary64.rounded q = Binary64.Finite (Binary64.round q).
Proof.
  intros Hq. unfold Binary64.rounded. cbv zeta.
  pose proof (round_error_128 q Hq) as Herr.
  assert (Qabs (Binary64.round q) <= 129) as Hr by (numerals; qabs; lra).
  assert (Qle_bool (Qabs (Binary64.round q)) Binary64.largest = true) as ->; [|done].
  apply Qle_bool_iff. eapply Qle_trans; [exact Hr|].
  apply Qle_bool_iff. by vm_compute.
Qed.

(** [Binary64.round] and the binary64 arithmetic of the kernel give
    the same products of the integer scores from 0 to 100 with the
    three weights, and the same sums of two such products. *)
Example round_agrees_with_primitive_floats :
  forallb (product_agrees 0x1.3333333333333p-2 0.3) whole_scores = true ∧
  forallb (product_agrees 0x1.999999999999ap-3 0.2) whole_scores = true ∧
  forallb (product_agrees 0x1p-2 0.25) whole_scores = true ∧
  forallb (λ n, forallb (sum_agrees 0x1.3333333333333p-2 0x1.999999999999ap-3
                                    0.3 0.2 n) [0; 1; 7; 45; 100]%Z)
          whole_scores = true.
Proof. split_and!; vm_compute; reflexivity. Qed.

(** ** The aggregator in binary64, block by block *)

Lemma append_weighted_contribution64 (results : pyresults) (name : string)
    (weight : Qc) (scores : list Binary64.binary64) :
  Binary64.append_weighted results name weight scores =
  (tail ← contribution64 results name weight; mret (scores ++ tail)).
Proof.
  unfold Binary64.append_weighted, contribution64, score_field.
  destruct (results !! name) as [entry|]; simpl.
  - destruct (entry !! "risk_score") as [v|]; simpl.
    + destruct (Binary64.py_mul v weight); reflexivity.
    + by rewrite app_nil_r.
  - by rewrite app_nil_r.
Qed.

Lemma calculate_risk_score_unfold64 (results : pyresults) :
  Binary64._calculate_risk_score results =
  (t1 ← contribution64 results "vulnerability_scanner" #0.3;
   t2 ← contribution64 results "policy_analyzer" #0.2;
   t3 ← contribution64 results "attack_simulator" #0.25;
   t4 ← contribution64 results "compliance_auditor" #0.25;
   mret (sum_or_default64 (t1 ++ t2 ++ t3 ++ t4))).
Proof.
  unfold Binary64._calculate_risk_score. rewrite !append_weighted_contribution64.
  destruct (contribution64 results "vulnerability_scanner" _) as [t1|]; simpl; [|done].
  rewrite !append_weighted_contribution64.
  destruct (contribution64 results "policy_analyzer" _) as [t2|]; simpl; [|done].
  rewrite !append_weighted_contribution64.
  destruct (contribution64 results "attack_simulator" _) as [t3|]; simpl; [|done].
  rewrite !append_weighted_contribution64.
  destruct (contribution64 results "compliance_auditor" _) as [t4|]; simpl; [|done].
  by rewrite <- !app_assoc.
Qed.

Lemma contribution64_cases (results : pyresults) (name : string) (weight : Qc) :
  (score_field results name = None ∧ contribution64 results name weight = Ok []) ∨
  (∃ v x p, score_field results name = Some v ∧ as_number v = Some x ∧
            overflows x = false ∧
            contribution64 results name weight = Ok [p]) ∨
  (∃ v x, score_field results name = Some v ∧ as_number v = Some x ∧
          overflows x = true ∧
          contribution64 results name weight = Raise OverflowError) ∨
  (∃ v, score_field results name = Some v ∧ as_number v = None ∧
        contribution64 results name weight = Raise TypeError).
Proof.
  unfold contribution64, Binary64.py_mul, overflows.
  destruct (score_field results name) as [v|]; [|by left].
  destruct (as_number v) as [x|] eqn:Hv; right; [|right; right; eauto].
  destruct (Binary64.rounded (this x)) eqn:Hr; simpl; [left|right; left..].
  - eexists v, x, _. by rewrite Hr.
  - exists v, x. by rewrite Hr.
  - exists v, x. by rewrite Hr.
Qed.

(** ** The computed aggregate beside the exact one *)

(** One product. *)
Lemma py_mul_close (v : pyval) (x w : Qc) :
  as_number v = Some x → 0 <= this x → this x <= 100 →
  w ∈ [(#0.3); (#0.2); (#0.25)] →
  ∃ p, Binary64.py_mul v w = Ok (Binary64.Finite p) ∧
       Qabs (p - this x * this w) <= 3 * 2 ^ (-46).
Proof.
  intros Hv Hlo Hhi Hw. unfold Binary64.py_mul. rewrite Hv.
  set (X := this x) in *.
  assert (Qabs X <= 128) as HX by (qabs; lra).
  rewrite (rounded_128 X HX).
  pose proof (round_error_128 X HX) as Hx1.
  set (x1 := Binary64.round X) in *. clearbody x1.
  rewrite !elem_of_cons, elem_of_nil in Hw.
  destruct Hw as [->|[->|[->|[]]]];
    match goal with
    | |- context [Binary64.round (this ?w)] =>
        let r := eval vm_compute in (Binary64.round (this w)) in
        change (Binary64.round (this w)) with r;
        let r' := eval vm_compute in (this w) in
        change (this w) with r'
    end;
    match goal with
    | |- context [Binary64.rounded ?P] =>
        assert (Qabs P <= 128) as HP by (numerals; qabs; lra);
        rewrite (rounded_128 P HP);
        pose proof (round_error_128 P HP) as Hp
    end;
    eexists; (split; [reflexivity|]);
    numerals; qabs; lra.
Qed.

Lemma fold_add_close (ps es : list Q) (acc a budget : Q) :
  Forall2 close ps es →
  Qabs (acc - a) <= budget → 0 <= a → 0 <= budget →
  a + total es <= 100 →
  budget + 4 * 2 ^ (-46) * inject_Z (Z.of_nat (length es)) <= 1 →
  ∃ s, fold_left Binary64.add (Binary64.Finite <$> ps) (Binary64.Finite acc) = Binary64.Finite s ∧
       Qabs (s - (a + total es)) <= budget + 4 * 2 ^ (-46) * inject_Z (Z.of_nat (length es)).
Proof.
  intros Hclose. revert acc a budget.
  induction Hclose as [|p e ps es [Hpe He] Hrest IH]; intros acc a budget Hacc Ha Hb Hsum Hbudget.
  - exists acc. split; [done|]. cbn [length total foldr] in *.
    change (inject_Z (Z.of_nat 0)) with 0 in *. numerals. qabs. lra.
  - rewrite fmap_cons. cbn [fold_left Binary64.add].
    cbn [length total foldr] in *. fold (total es) in *.
    rewrite Nat2Z.inj_succ, <- Z.add_1_r, inject_Z_plus in *.
    change (inject_Z 1) with 1 in *.
    set (n := inject_Z (Z.of_nat (length es))) in *.
    assert (0 <= n) as Hn.
    { unfold n. change 0 with (inject_Z 0). rewrite <- Zle_Qle. lia. }
    assert (0 <= total es) as Htot.
    { clear -Hrest. induction Hrest as [|? ? ? es' [_ ?] _ ?]; cbn [total foldr]; [done|].
      fold (total es'). lra. }
    clearbody n.
    assert (Qabs (acc + p) <= 128) as HP by (numerals; qabs; lra).
    rewrite (rounded_128 _ HP).
    pose proof (round_error_128 _ HP) as Hr.
    destruct (IH (Binary64.round (acc + p)) (a + e) (budget + 4 * 2 ^ (-46)))
      as (s & -> & Hs).
    + numerals. qabs. lra.
    + lra.
    + numerals. lra.
    + lra.
    + numerals. lra.
    + exists s. split; [done|]. numerals. qabs. lra.
Qed.

Lemma total_app (l1 l2 : list Q) : total (l1 ++ l2) == total l1 + total l2.
Proof.
  induction l1 as [|x l1 IH].
  - unfold total at 2. simpl. by rewrite Qplus_0_l.
  - change (total ((x :: l1) ++ l2)) with (x + total (l1 ++ l2)).
    change (total (x :: l1)) with (x + total l1). rewrite IH. ring.
Qed.

Lemma this_py_sum (es : list Qc) : this (py_sum es) == total (this <$> es).
Proof.
  induction es as [|e es IH]; [done|].
  rewrite py_sum_cons, fmap_cons. cbn [total foldr]. fold (total (this <$> es)).
  rewrite <- IH. unfold Qcplus. cbn [this Q2Qc]. apply Qred_correct.
Qed.

Lemma contribution_close (results : pyresults) (name : string) (w : Qc) :
  w ∈ source_weights →
  (∀ v, score_field results name = Some v →
     ∃ x, as_number v = Some x ∧ (#0 ≤ x)%Qc ∧ (x ≤ #100)%Qc) →
  ∃ (es : list Qc) (ps : list Q),
    contribution results name w = Ok es ∧
    contribution64 results name w = Ok (Binary64.Finite <$> ps) ∧
    Forall2 close ps (this <$> es) ∧
    total (this <$> es) <= 100 * this w ∧
    (length es <= 1)%nat.
Proof.
  intros Hw Hscale. unfold contribution, contribution64.
  destruct (score_field results name) as [v|].
  - destruct (Hscale v eq_refl) as (x & Hx & Hlo & Hhi).
    unfold Qcle in Hlo, Hhi. cbn [this Q2Qc] in Hlo, Hhi.
    change (Qred 0) with 0 in Hlo. change (Qred 100) with 100 in Hhi.
    destruct (py_mul_close v x w Hx Hlo Hhi Hw) as (p & Hp & Hclose).
    rewrite Hp. unfold py_mul. rewrite Hx. simpl.
    assert (this (x * w)%Qc == this x * this w) as Hmul.
    { unfold Qcmult. cbn [this Q2Qc]. apply Qred_correct. }
    assert (0 <= this w) as Hw0.
    { unfold source_weights in Hw. rewrite !elem_of_cons, elem_of_nil in Hw.
      destruct Hw as [->|[->|[->|[]]]]; by vm_compute. }
    exists [(x * w)%Qc], [p]. split_and!; try done.
    + constructor; [|constructor]. split.
      * rewrite Hmul. exact Hclose.
      * rewrite Hmul. nra.
    + cbn [fmap list_fmap total foldr]. rewrite Hmul. nra.
  - exists [], []. split_and!; try done; [|simpl; lia].
    cbn. unfold source_weights in Hw. rewrite !elem_of_cons, elem_of_nil in Hw.
      destruct Hw as [->|[->|[->|[]]]]; by vm_compute.
Qed.

Lemma this_plus (x y : Qc) : this (x + y)%Qc == this x + this y.
Proof. unfold Qcplus. cbn [this Q2Qc]. apply Qred_correct. Qed.

Lemma this_mult (x y : Qc) : this (x * y)%Qc == this x * this y.
Proof. unfold Qcmult. cbn [this Q2Qc]. apply Qred_correct. Qed.

Lemma this_minus (x y : Qc) : this (x - y)%Qc == this x - this y.
Proof.
  unfold Qcminus, Qcopp, Qcplus. cbn [this Q2Qc].
  rewrite !Qred_correct. reflexivity.
Qed.

(** On results whose scores are on the scale, both aggregators return,
    and the float the code computes is within [2 ^ (-42)] of the exact
    weighted sum. *)
Lemma binary64_close_to_exact (results : pyresults) :
  on_scale results →
  ∃ (a : Qc) (b : Q),
    _calculate_risk_score results = Ok a ∧
    Binary64._calculate_risk_score results = Ok (Binary64.Finite b) ∧
    Qabs (b - this a) <= 2 ^ (-42).
Proof.
  intros Hscale.
  rewrite calculate_risk_score_unfold, calculate_risk_score_unfold64.
  destruct (contribution_close results "vulnerability_scanner" (#0.3)%Qc)
    as (e1 & p1 & -> & -> & C1 & T1 & L1);
    [unfold source_weights; rewrite !elem_of_cons; auto
    |intros v; apply Hscale; designated|].
  destruct (contribution_close results "policy_analyzer" (#0.2)%Qc)
    as (e2 & p2 & -> & -> & C2 & T2 & L2);
    [unfold source_weights; rewrite !elem_of_cons; auto
    |intros v; apply Hscale; designated|].
  destruct (contribution_close results "attack_simulator" (#0.25)%Qc)
    as (e3 & p3 & -> & -> & C3 & T3 & L3);
    [unfold source_weights; rewrite !elem_of_cons; auto
    |intros v; apply Hscale; designated|].
  destruct (contribution_close results "compliance_auditor" (#0.25)%Qc)
    as (e4 & p4 & -> & -> & C4 & T4 & L4);
    [unfold source_weights; rewrite !elem_of_cons; auto
    |intros v; apply Hscale; designated|].
  cbn [mbind outcome_bind mret outcome_ret].
  rewrite <- !fmap_app.
  set (es := e1 ++ e2 ++ e3 ++ e4). set (ps := p1 ++ p2 ++ p3 ++ p4).
  assert (Forall2 close ps (this <$> es)) as Hclose.
  { unfold es, ps. rewrite !fmap_app. by repeat apply Forall2_app. }
  assert (total (this <$> es) <= 100) as Htotal.
  { unfold es. rewrite !fmap_app, !total_app.
    this_literals. lra. }
  assert (length es <= 4)%nat as Hlen.
  { unfold es. rewrite !length_app. lia. }
  clearbody es ps. clear -Hclose Htotal Hlen.
  assert (inject_Z (Z.of_nat (length (this <$> es))) <= 4) as Hn.
  { change 4 with (inject_Z 4). rewrite <- Zle_Qle, length_fmap. lia. }
  destruct es as [|e es].
  - apply Forall2_nil_inv_r in Hclose as ->. by exists (#50)%Qc, 50.
  - destruct (fold_add_close ps (this <$> e :: es) 0 0 0) as (s & Hs & Herr);
      [done..|lra|numerals; lra|].
    exists (sum_or_default (e :: es)), s. split_and!.
    + reflexivity.
    + rewrite fmap_cons in Hclose.
      apply Forall2_cons_inv_r in Hclose as (p & ps' & _ & _ & ->).
      by rewrite <- Hs.
    + unfold sum_or_default. rewrite this_py_sum.
      numerals. qabs. lra.
Qed.

Lemma on_scale_set_score (results : pyresults) (entry : pydict) (v' : pyval) (s' : Qc) :
  on_scale results → as_number v' = Some s' → (#0 ≤ s')%Qc → (s' ≤ #100)%Qc →
  on_scale (<["vulnerability_scanner" := <["risk_score" := v']> entry]> results).
Proof.
  intros Hscale Hv' Hlo Hhi name v Hname. unfold score_field.
  destruct (decide (name = "vulnerability_scanner")) as [->|Hne].
  - rewrite lookup_insert_eq. simpl. rewrite lookup_insert_eq. intros [= <-]. eauto.
  - rewrite lookup_insert_ne by done. by apply Hscale.
Qed.

(** ** C6: linearity in the vulnerability scanner's score *)

(** C6, amended.  When the vulnerability scanner's entry carries the
    numeric risk score [s] and that score alone is changed to [s'], the
    aggregate in exact arithmetic changes by exactly [0.3 * (s' - s)];
    the aggregate the code computes, in binary64, changes by
    [0.3 * (s' - s)] up to rounding: by at most [2 ^ (-41)] more or
    less when the scores of the designated modules lie between 0 and
    100. *)
Theorem aggregate_linear_in_vulnerability_score
    (results : pyresults) (entry : pydict) (v v' : pyval) (s s' : Qc) :
  results !! "vulnerability_scanner" = Some entry →
  entry !! "risk_score" = Some v →
  as_number v = Some s →
  as_number v' = Some s' →
  let results' := <["vulnerability_scanner" := <["risk_score" := v']> entry]> results in
  (∀ a, _calculate_risk_score results = Ok a →
        _calculate_risk_score results' = Ok (a + #0.3 * (s' - s))%Qc) ∧
  (on_scale results → (#0 ≤ s')%Qc → (s' ≤ #100)%Qc →
   ∃ b b', Binary64._calculate_risk_score results = Ok (Binary64.Finite b) ∧
           Binary64._calculate_risk_score results' = Ok (Binary64.Finite b') ∧
           Qabs ((b' - b) - 0.3 * (this s' - this s)) <= 2 ^ (-41)).
Proof.
  intros Hentry Hv Hs Hs' results'.
  assert (∀ a, _calculate_risk_score results = Ok a →
               _calculate_risk_score results' = Ok (a + #0.3 * (s' - s))%Qc)
    as Hexact.
  { intros a Ha.
    apply (aggregate_linear_exact results entry v v' s (s' - s)%Qc a);
      try done.
    rewrite Hs'. f_equal. ring. }
  split; [done|].
  intros Hscale Hlo Hhi.
  destruct (binary64_close_to_exact results Hscale) as (a & b & Ha & Hb & Hab).
  destruct (binary64_close_to_exact results'
              (on_scale_set_score results entry v' s' Hscale Hs' Hlo Hhi))
    as (a' & b' & Ha' & Hb' & Hab').
  rewrite (Hexact a Ha) in Ha'. injection Ha' as <-.
  exists b, b'. split_and!; [done..|].
  assert (this (a + #0.3 * (s' - s))%Qc == this a + 0.3 * (this s' - this s)) as Hlin.
  { rewrite this_plus, this_mult, this_minus. this_literals. reflexivity. }
  rewrite Hlin in Hab'. numerals. qabs. lra.
Qed.

Lemma aggregate_linear_in_vulnerability_score_witness :
  let entry : pydict := dict_of [("status", PStr "completed"); ("risk_score", PNum #1)] in
  let results : pyresults :=
    <["policy_analyzer" := dict_of [("risk_score", PNum #1)]]>
      {[ "vulnerability_scanner" := entry ]} in
  let results' := <["vulnerability_scanner" := <["risk_score" := PNum #2]> entry]> results in
  _calculate_risk_score results' = Ok (#0.5 + #0.3 * (#2 - #1))%Qc ∧
  ∃ b b', Binary64._calculate_risk_score results = Ok (Binary64.Finite b) ∧
          Binary64._calculate_risk_score results' = Ok (Binary64.Finite b') ∧
          Qabs ((b' - b) - 0.3 * (this #2 - this #1)) <= 2 ^ (-41).
Proof.
  intros entry results results'.
  destruct (aggregate_linear_in_vulnerability_score results entry (PNum #1) (PNum #2)
              #1 #2 eq_refl eq_refl eq_refl eq_refl) as [Hexact Hbinary64].
  split.
  - apply Hexact. vm_compute. f_equal. apply Qc_is_canon. reflexivity.
  - apply Hbinary64; [|by vm_compute..].
    intros name v Hname Hv.
    designated_inv Hname; vm_compute in Hv; try discriminate;
      injection Hv as <-; eexists; (split; [reflexivity|]); split; by vm_compute.
Defined.

(** C6, as the claim states it, fails of the code: with the policy
    analyzer at 1, raising the vulnerability scanner's score from 1 to 2
    takes the aggregate from 0.5 to 0.8 (the float nearest to it), and
    the two differ by 0.30000000000000004..., which is neither
    3/10 nor the float [0.3 * 1]. *)
Lemma vulnerability_score_step_is_not_exact :
  let entry : pydict := dict_of [("status", PStr "completed"); ("risk_score", PNum #1)] in
  let results : pyresults :=
    <["policy_analyzer" := dict_of [("risk_score", PNum #1)]]>
      {[ "vulnerability_scanner" := entry ]} in
  let results' := <["vulnerability_scanner" := <["risk_score" := PNum #2]> entry]> results in
  ∃ b b', Binary64._calculate_risk_score results = Ok (Binary64.Finite b) ∧
          Binary64._calculate_risk_score results' = Ok (Binary64.Finite b') ∧
          b == 0.5 ∧
          b' == Qmake 3602879701896397 4503599627370496 ∧
          ¬ (b' - b == 0.3 * (2 - 1)) ∧
          ¬ (b' - b == Binary64.round 0.3 * (2 - 1)) ∧
          ¬ (Binary64.round (b' - b) == Binary64.round (Binary64.round 0.3 * (2 - 1))).
Proof.
  intros entry results results'.
  eexists _, _. split; [vm_compute; reflexivity|]. split; [vm_compute; reflexivity|].
  split_and!; by vm_compute.
Qed.

(** ** Which scores make the aggregator raise *)

Lemma no_overflow (x : Qc) : Qabs (this x) <= 2 ^ 1023 → overflows x = false.
Proof.
  intros Hx. unfold overflows, Binary64.rounded. cbv zeta.
  pose proof (round_error (this x) 1023 ltac:(lia) ltac:(lia) Hx) as Herr.
  assert (Qle_bool (Qabs (Binary64.round (this x))) Binary64.largest = true) as ->; [|done].
  apply Qle_bool_iff.
  assert (Qabs (Binary64.round (this x)) <= 2 ^ 1023 + 2 ^ (1023 - 53)) as Hr.
  { pose proof (two_power_pos (1023 - 53)). pose proof (two_power_pos 1023).
    generalize dependent (2 ^ (1023 - 53)). generalize dependent (2 ^ 1023).
    intros. qabs. lra. }
  eapply Qle_trans; [exact Hr|]. apply Qle_bool_iff. by vm_compute.
Qed.

Lemma raises_four {A B : Type} (c1 c2 c3 c4 : outcome A) (f : A → A → A → A → B) :
  raises (t1 ← c1; t2 ← c2; t3 ← c3; t4 ← c4; mret (f t1 t2 t3 t4)) ↔
  raises c1 ∨ raises c2 ∨ raises c3 ∨ raises c4.
Proof.
  unfold raises.
  destruct c1 as [t1|e1], c2 as [t2|e2], c3 as [t3|e3], c4 as [t4|e4]; simpl;
    unfold mret, outcome_ret; split; eauto 6;
    intros H; decompose [or ex] H; discriminate.
Qed.

Lemma raised_by_one_of_four {A B : Type} (c1 c2 c3 c4 : outcome A)
    (f : A → A → A → A → B) (e : exn) :
  (t1 ← c1; t2 ← c2; t3 ← c3; t4 ← c4; mret (f t1 t2 t3 t4)) = Raise e →
  c1 = Raise e ∨ c2 = Raise e ∨ c3 = Raise e ∨ c4 = Raise e.
Proof.
  destruct c1 as [t1|e1], c2 as [t2|e2], c3 as [t3|e3], c4 as [t4|e4]; simpl;
    unfold mret, outcome_ret; intros [= <-]; auto.
Qed.

Lemma designated_exists (P : string → Prop) :
  (∃ name, name ∈ designated_modules ∧ P name) ↔
  P "vulnerability_scanner" ∨ P "policy_analyzer" ∨
  P "attack_simulator" ∨ P "compliance_auditor".
Proof.
  unfold designated_modules. split.
  - intros (name & Hname & HP). rewrite !elem_of_cons, elem_of_nil in Hname.
    destruct Hname as [->|[->|[->|[->|[]]]]]; auto.
  - intros [H|[H|[H|H]]]; eexists; (split; [|exact H]); rewrite !elem_of_cons; auto 6.
Qed.

Lemma contribution64_raises (results : pyresults) (name : string) (weight : Qc) :
  raises (contribution64 results name weight) ↔
  ∃ v, score_field results name = Some v ∧ bad_score v.
Proof.
  unfold raises, bad_score.
  destruct (contribution64_cases results name weight)
    as [[F ->]|[(v & x & p & F & N & O & ->)|[(v & x & F & N & O & ->)|(v & F & N & ->)]]];
    split.
  - by intros [e ?].
  - intros (v & Hv & _). congruence.
  - by intros [e ?].
  - intros (v' & Hv & [Hn|(x' & Hn & Ho)]); congruence.
  - intros _. exists v. split; [done|]. right. eauto.
  - intros _. by eexists.
  - intros _. exists v. split; [done|]. by left.
  - intros _. by eexists.
Qed.

Lemma contribution64_raised (results : pyresults) (name : string) (weight : Qc) (e : exn) :
  contribution64 results name weight = Raise e → e = TypeError ∨ e = OverflowError.
Proof.
  destruct (contribution64_cases results name weight)
    as [[F ->]|[(v & x & p & F & N & O & ->)|[(v & x & F & N & O & ->)|(v & F & N & ->)]]];
    intros [= <-]; auto.
Qed.

(** The aggregator raises exactly when a designated module carries a
    risk score it cannot multiply: one that is no number (a string, a
    list, a dict, [None]), for which it raises [TypeError], or an [int]
    too large to be converted to a float, for which it raises
    [OverflowError]; it raises nothing else, and no number of
    magnitude up to [2 ^ 1023] is too large. *)
Theorem aggregate_raises_on_bad_scores_only (results : pyresults) :
  (∀ e, Binary64._calculate_risk_score results = Raise e →
        e = TypeError ∨ e = OverflowError) ∧
  ((∃ e, Binary64._calculate_risk_score results = Raise e) ↔
   ∃ name v, name ∈ designated_modules ∧ score_field results name = Some v ∧
             bad_score v) ∧
  (∀ x : Qc, Qabs (this x) <= 2 ^ 1023 → overflows x = false).
Proof.
  rewrite calculate_risk_score_unfold64. split_and!.
  - intros e He.
    apply (raised_by_one_of_four _ _ _ _ (λ t1 t2 t3 t4, sum_or_default64 (t1 ++ t2 ++ t3 ++ t4)))
      in He as [He|[He|[He|He]]];
      by eapply contribution64_raised.
  - etrans;
      [apply (raises_four _ _ _ _ (λ t1 t2 t3 t4, sum_or_default64 (t1 ++ t2 ++ t3 ++ t4)))|].
    rewrite !contribution64_raises.
    rewrite <- (designated_exists
                  (λ name, ∃ v, score_field results name = Some v ∧ bad_score v)).
    split.
    + intros (name & Hname & v & Hv & Hbad). eauto.
    + intros (name & v & Hname & Hv & Hbad). eauto.
  - apply no_overflow.
Qed.

(** ** The level of the computed aggregate *)

Lemma risk_level_of_close (a : Qc) (b : Q) :
  Qabs (b - this a) <= 2 ^ (-42) →
  (∀ edge : Q, edge ∈ [20; 50; 80] →
     this a < edge - 2 ^ (-42) ∨ edge + 2 ^ (-42) <= this a) →
  _risk_level (Q2Qc b) = _risk_level a.
Proof.
  intros Hclose Hedges.
  pose proof (Hedges 20 (list_elem_of_here _ _)) as H20.
  pose proof (Hedges 50 (list_elem_of_further _ _ _ (list_elem_of_here _ _))) as H50.
  pose proof (Hedges 80 (list_elem_of_further _ _ _ (list_elem_of_further _ _ _ (list_elem_of_here _ _)))) as H80.
  clear Hedges. unfold _risk_level.
  repeat case_bool_decide; try done; exfalso;
    unfold Qclt, Qcle in *; cbn [this Q2Qc] in *;
    repeat match goal with
    | H : context [Qred ?q] |- _ => rewrite (Qred_correct q) in H
    end;
    numerals; qabs; lra.
Qed.

(** On results whose scores are on the scale, the aggregate the code
    computes is within [2 ^ (-42)] of the exact weighted sum, and it has
    the level of the exact sum unless that sum lies within
    [2 ^ (-42)] of one of the band edges 20, 50 and 80. *)
Theorem binary64_aggregate_within_rounding (results : pyresults) :
  on_scale results →
  ∃ (a : Qc) (b : Q),
    _calculate_risk_score results = Ok a ∧
    Binary64._calculate_risk_score results = Ok (Binary64.Finite b) ∧
    Qabs (b - this a) <= 2 ^ (-42) ∧
    ((∀ edge : Q, edge ∈ [20; 50; 80] →
        this a < edge - 2 ^ (-42) ∨ edge + 2 ^ (-42) <= this a) →
     _risk_level (Q2Qc b) = _risk_level a).
Proof.
  intros Hscale.
  destruct (binary64_close_to_exact results Hscale) as (a & b & Ha & Hb & Hab).
  exists a, b. split_and!; [done..|]. by apply risk_level_of_close.
Qed.


Lemma binary64_aggregate_within_rounding_witness :
  ∃ (a : Qc) (b : Q),
    _calculate_risk_score
      (run_modules (modules (SentinelAegis_init (Configuration "ACME" "./reports") "t0")))
    = Ok a ∧
    Binary64._calculate_risk_score
      (run_modules (modules (SentinelAegis_init (Configuration "ACME" "./reports") "t0")))
    = Ok (Binary64.Finite b) ∧
    Qabs (b - this a) <= 2 ^ (-42) ∧
    ((∀ edge : Q, edge ∈ [20; 50; 80] →
        this a < edge - 2 ^ (-42) ∨ edge + 2 ^ (-42) <= this a) →
     _risk_level (Q2Qc b) = _risk_level a).
Proof.
  apply binary64_aggregate_within_rounding.
  intros name v Hname Hv.
  designated_inv Hname; vm_compute in Hv; injection Hv as <-;
    eexists; (split; [reflexivity|]); split; by vm_compute.
Defined.

(** At a band edge the rounding can change the level: with the scores
    62 and 7 the exact aggregate is 20, which is MEDIUM, and the
    aggregate computed in binary64 is 19.999999999999996, which is
    LOW. *)
Example rounding_can_lower_the_level :
  let results : pyresults :=
    <["vulnerability_scanner" := dict_of [("risk_score", PNum #62)]]>
      {[ "policy_analyzer" := dict_of [("risk_score", PNum #7)] ]} in
  ∃ (a : Qc) (b : Q),
    _calculate_risk_score results = Ok a ∧ _risk_level a = "MEDIUM" ∧
    Binary64._calculate_risk_score results = Ok (Binary64.Finite b) ∧
    _risk_level (Q2Qc b) = "LOW".
Proof.
  intros results. eexists _, _.
  split; [reflexivity|]. split; [reflexivity|].
  split; [vm_compute; reflexivity|reflexivity].
Qed.

End binary64.

(** * The store *)

(** ** What each operation leaves alone *)

Section preserves.
Context (L : gset positive).

Lemma preserves_weaken {A : Type} (m : Heap.M A) (Q R : A → Prop) :
  preserves L m Q → (∀ a, Q a → R a) → preserves L m R.
Proof.
  intros Hm HQR h Hh. destruct (Hm h Hh) as (Hdom & Hsame & HQ).
  split_and!; [done..|]. intros a Ha. by apply HQR, HQ.
Qed.

Lemma preserves_ret {A : Type} (a : A) : preserves L (mret a) anything.
Proof. intros h Hh. by split_and!. Qed.

Lemma preserves_raise {A : Type} (e : exn) : preserves L (Heap.raise e : Heap.M A) anything.
Proof. intros h Hh. by split_and!. Qed.

Lemma preserves_pure {A : Type} (o : outcome A) : preserves L (Heap.pure o) anything.
Proof. intros h Hh. by split_and!. Qed.

Lemma preserves_load (v : Heap.value) : preserves L (Heap.load v) anything.
Proof. intros h Hh. by split_and!. Qed.

Lemma preserves_bind {A B : Type} (m : Heap.M A) (k : A → Heap.M B)
    (Q : A → Prop) (R : B → Prop) :
  preserves L m Q → (∀ a, Q a → preserves L (k a) R) →
  preserves L (m ≫= k) R.
Proof.
  intros Hm Hk h Hh. unfold mbind, Heap.M_bind.
  destruct (Hm h Hh) as (Hdom & Hsame & HQ).
  destruct (m h) as [[a|e] h1]; simpl in *.
  - destruct (Hk a (HQ a eq_refl) h1) as (Hdom' & Hsame' & HR); [set_solver|].
    split_and!; [set_solver| |done].
    intros l Hl. by rewrite Hsame', Hsame.
  - split_and!; done.
Qed.

Lemma preserves_alloc (o : Heap.object) : preserves L (Heap.alloc o) (new_object L).
Proof.
  intros h Hh. unfold Heap.alloc. cbv zeta. cbn [fst snd].
  pose proof (is_fresh (dom h)) as Hfresh.
  split_and!.
  - rewrite dom_insert_L. set_solver.
  - intros l Hl. rewrite lookup_insert_ne; [done|]. set_solver.
  - intros a [= <-]. eexists. split; [done|]. set_solver.
Qed.

Lemma preserves_append (l x : Heap.value) :
  new_object L l → preserves L (Heap.append l x) anything.
Proof.
  intros (a & -> & Ha) h Hh. unfold Heap.append.
  destruct (h !! a) as [[items|fields]|] eqn:Hobj; simpl; split_and!; try done.
  - rewrite dom_insert_L. set_solver.
  - intros l Hl. rewrite lookup_insert_ne; [done|]. set_solver.
Qed.

Lemma preserves_contains (key : string) (v : Heap.value) :
  preserves L (Heap.contains key v) anything.
Proof.
  eapply preserves_bind; [apply preserves_load|]. intros [[items|fields]|] _.
  - apply preserves_ret.
  - apply preserves_ret.
  - destruct v; try apply preserves_raise. apply preserves_ret.
Qed.

Lemma preserves_getitem (v : Heap.value) (key : string) :
  preserves L (Heap.getitem v key) anything.
Proof.
  eapply preserves_bind; [apply preserves_load|]. intros [[items|fields]|] _;
    try apply preserves_raise.
  destruct (fields !! key); [apply preserves_ret|apply preserves_raise].
Qed.

Lemma preserves_get (v : Heap.value) (key : string) (default : Heap.value) :
  preserves L (Heap.get v key default) anything.
Proof.
  eapply preserves_bind; [apply preserves_load|]. intros [[items|fields]|] _;
    try apply preserves_raise. apply preserves_ret.
Qed.

Lemma preserves_mul (v : Heap.value) (w : Qc) : preserves L (Heap.mul v w) anything.
Proof. destruct v; try apply preserves_raise; apply preserves_ret. Qed.

Lemma preserves_iterate (v : Heap.value) : preserves L (Heap.iterate v) anything.
Proof.
  eapply preserves_bind; [apply preserves_load|]. intros [[items|fields]|] _.
  - apply preserves_ret.
  - apply preserves_ret.
  - destruct v; try apply preserves_raise. apply preserves_ret.
Qed.

Lemma preserves_truthy (v : Heap.value) : preserves L (Heap.truthy v) anything.
Proof.
  eapply preserves_bind; [apply preserves_load|]. intros o _. apply preserves_ret.
Qed.

Lemma preserves_sum (v : Heap.value) : preserves L (Heap.sum v) anything.
Proof.
  eapply preserves_bind; [apply preserves_iterate|]. intros items _.
  apply preserves_pure.
Qed.

Lemma preserves_for_each {A : Type} (body : A → Heap.M unit) (items : list A) :
  (∀ x, preserves L (body x) anything) →
  preserves L (Heap.for_each body items) anything.
Proof.
  intros Hbody. induction items as [|x items IH]; simpl.
  - apply preserves_ret.
  - eapply preserves_bind; [apply Hbody|]. by intros _ _.
Qed.

Lemma preserves_keys_of (key : Heap.value → Heap.M nat) (items : list Heap.value) :
  (∀ x, preserves L (key x) anything) →
  preserves L (Heap.keys_of key items) anything.
Proof.
  intros Hkey. induction items as [|x items IH]; simpl.
  - apply preserves_ret.
  - eapply preserves_bind; [apply Hkey|]. intros k _.
    eapply preserves_bind; [apply IH|]. intros keyed _. apply preserves_ret.
Qed.

Lemma preserves_sorted_by (key : Heap.value → Heap.M nat) (v : Heap.value) :
  (∀ x, preserves L (key x) anything) →
  preserves L (Heap.sorted_by key v) (new_object L).
Proof.
  intros Hkey.
  eapply preserves_bind; [apply preserves_iterate|]. intros items _.
  eapply preserves_bind; [by apply preserves_keys_of|]. intros keyed _.
  apply preserves_alloc.
Qed.

Lemma preserves_sort_key (x : Heap.value) : preserves L (Heap.sort_key x) anything.
Proof.
  eapply preserves_bind; [apply preserves_getitem|]. intros p _.
  destruct p; try apply preserves_ret. apply preserves_raise.
Qed.

Lemma preserves_append_weighted (results : Heap.value) (name : string) (weight : Qc)
    (scores : Heap.value) :
  new_object L scores →
  preserves L (Heap.append_weighted results name weight scores) anything.
Proof.
  intros Hscores.
  eapply preserves_bind; [apply preserves_contains|]. intros [] _; [|apply preserves_ret].
  eapply preserves_bind; [apply preserves_getitem|]. intros entry _.
  eapply preserves_bind; [apply preserves_contains|]. intros [] _; [|apply preserves_ret].
  eapply preserves_bind; [apply preserves_getitem|]. intros entry' _.
  eapply preserves_bind; [apply preserves_getitem|]. intros score _.
  eapply preserves_bind; [apply preserves_mul|]. intros x _.
  by apply preserves_append.
Qed.

Lemma preserves_calculate_risk_score (results : Heap.value) :
  preserves L (Heap._calculate_risk_score results) anything.
Proof.
  eapply preserves_bind; [apply preserves_alloc|]. intros scores Hscores.
  do 4 (eapply preserves_bind; [by apply preserves_append_weighted|]; intros _ _).
  eapply preserves_bind; [apply preserves_truthy|]. intros [] _.
  - apply preserves_sum.
  - apply preserves_ret.
Qed.

Lemma preserves_recommend_vuln (recommendations vuln : Heap.value) :
  new_object L recommendations →
  preserves L (Heap.recommend_vuln recommendations vuln) anything.
Proof.
  intros Hrecs.
  eapply preserves_bind; [apply preserves_get|]. intros severity _.
  destruct (Heap.in_strings severity _); [|apply preserves_ret].
  eapply preserves_bind; [apply preserves_get|]. intros finding _.
  eapply preserves_bind; [apply preserves_get|]. intros action _.
  eapply preserves_bind; [apply preserves_alloc|]. intros recommendation _.
  by apply preserves_append.
Qed.

Lemma preserves_generate_recommendations (results : Heap.value) :
  preserves L (Heap._generate_recommendations results) (new_object L).
Proof.
  eapply preserves_bind; [apply preserves_alloc|]. intros recommendations Hrecs.
  eapply preserves_bind; [apply preserves_contains|]. intros present _.
  eapply (preserves_bind _ _ anything).
  - destruct present; [|apply preserves_ret].
    eapply preserves_bind; [apply preserves_getitem|]. intros entry _.
    eapply preserves_bind; [apply preserves_alloc|]. intros default _.
    eapply preserves_bind; [apply preserves_get|]. intros vulns _.
    eapply preserves_bind; [apply preserves_iterate|]. intros items _.
    apply preserves_for_each. intros vuln. by apply preserves_recommend_vuln.
  - intros _ _. apply preserves_sorted_by, preserves_sort_key.
Qed.

End preserves.


(** ** C10: the report and the module results *)

(** C10.  Report generation leaves the module results unchanged.  In
    every store and for every results value: each object the store
    holds is left as it was by the aggregator, by the recommendation
    builder and by the report generation, whether they return or
    raise (the only object the engine ever writes to is a list it has
    made itself); and a report that is returned is a new dict whose
    ["module_results"] is the very value that was passed in, so that
    the mapping read through the report is the input mapping, with
    every entry as the modules left it. *)
Theorem report_keeps_module_results (cfg : configuration) (now : string)
    (results : Heap.value) (h : gmap positive Heap.object) :
  (∀ l o, h !! l = Some o →
     (Heap._calculate_risk_score results h).2 !! l = Some o ∧
     (Heap._generate_recommendations results h).2 !! l = Some o ∧
     (Heap._generate_report cfg now results h).2 !! l = Some o) ∧
  (∀ report, (Heap._generate_report cfg now results h).1 = Ok report →
     ∃ l fields,
       report = Heap.VRef l ∧ h !! l = None ∧
       (Heap._generate_report cfg now results h).2 !! l = Some (Heap.ODict fields) ∧
       fields !! "module_results" = Some results).
Proof.
  pose proof (preserves_calculate_risk_score (dom h) results h (reflexivity _))
    as (Hdom1 & Hsame1 & _).
  pose proof (preserves_generate_recommendations (dom h) results h (reflexivity _))
    as (_ & Hsame2 & _).
  unfold Heap._generate_report, mbind, Heap.M_bind.
  destruct (Heap._calculate_risk_score results h) as [[score|e] h1] eqn:Hscore;
    simpl in *.
  2: { split; [|done]. intros l o Hl.
       rewrite Hsame1, Hsame2 by (by apply elem_of_dom). done. }
  pose proof (preserves_generate_recommendations (dom h) results h1 Hdom1)
    as (Hdom3 & Hsame3 & _).
  destruct (Heap._generate_recommendations results h1) as [[recs|e] h2] eqn:Hrecs;
    simpl in *.
  2: { split; [|done]. intros l o Hl.
       rewrite Hsame1, Hsame2, Hsame3, Hsame1 by (by apply elem_of_dom). done. }
  pose proof (is_fresh (dom h2)) as Hfresh.
  assert (fresh (dom h2) ∉ dom h) as Hnew by set_solver.
  split.
  - intros l o Hl. assert (l ∈ dom h) as Hin by (by apply elem_of_dom).
    rewrite Hsame1, Hsame2 by done. split_and!; [done..|].
    rewrite lookup_insert_ne by (by intros <-).
    by rewrite Hsame3, Hsame1.
  - intros report [= <-]. eexists _, _. split_and!.
    + done.
    + by apply not_elem_of_dom.
    + by rewrite lookup_insert_eq.
    + done.
Qed.

Lemma report_keeps_module_results_witness :
  ∃ l fields,
    Heap.VRef 12 = Heap.VRef l ∧ example_heap !! l = None ∧
    (Heap._generate_report (Configuration "ACME" "./reports") "t1"
       (Heap.VRef 1) example_heap).2 !! l = Some (Heap.ODict fields) ∧
    fields !! "module_results" = Some (Heap.VRef 1).
Proof.
  exact (proj2 (report_keeps_module_results (Configuration "ACME" "./reports") "t1"
                  (Heap.VRef 1) example_heap)
               (Heap.VRef 12) ltac:(vm_compute; reflexivity)).
Defined.

(** On the example store the report is built: the aggregate is 19.5
    (35 * 0.3 + 45 * 0.2), the level LOW, and the one recommendation is
    that of the finding of severity high; the results mapping and the
    scanner's entry are afterwards what they were. *)
Example report_on_the_example_store :
  let run := Heap._generate_report (Configuration "ACME" "./reports") "t1"
               (Heap.VRef 1) example_heap in
  run.1 = Ok (Heap.VRef 12) ∧
  (∃ fields, run.2 !! 12%positive = Some (Heap.ODict fields) ∧
     fields !! "risk_score" = Some (Heap.VNum #19.5) ∧
     fields !! "risk_level" = Some (Heap.VStr "LOW") ∧
     fields !! "module_results" = Some (Heap.VRef 1) ∧
     fields !! "recommendations" = Some (Heap.VRef 11)) ∧
  run.2 !! 11%positive = Some (Heap.OList [Heap.VRef 10]) ∧
  (∃ fields, run.2 !! 10%positive = Some (Heap.ODict fields) ∧
     fields !! "priority" = Some (Heap.VStr "high") ∧
     fields !! "finding" = Some (Heap.VStr "SQL Injection Vulnerability") ∧
     fields !! "action" = Some (Heap.VStr "Update database middleware")) ∧
  run.2 !! 1%positive = example_heap !! 1%positive ∧
  run.2 !! 2%positive = example_heap !! 2%positive.
Proof.
  intros run. split_and!.
  - vm_compute. reflexivity.
  - eexists. split; [vm_compute; reflexivity|].
    split_and!; try (vm_compute; reflexivity).
    vm_compute. do 2 f_equal. apply Qc_is_canon. reflexivity.
  - vm_compute. reflexivity.
  - eexists. split; [vm_compute; reflexivity|].
    split_and!; vm_compute; reflexivity.
  - vm_compute. reflexivity.
  - vm_compute. reflexivity.
Qed.
